(** * Shipping-label selectors: form validation, step gate and price breakdown

    A shallow embedding of the selector module of the shipping-label purchase
    flow (state/shipping-label/selectors): [getTotalPriceBreakdown],
    [isCustomsFormRequired], [getRawAddressErrors], [getAddressErrors],
    [getPackagesErrors], [getCustomsErrors], [getRatesErrors], [getFormErrors],
    [isCustomsFormStepSubmitted] and [getFirstErroneousStep].

    Conventions of the embedding:
    - a JavaScript object that is only read by key is a [gmap string _];
      an object whose own keys are enumerated ([for .. in], lodash [forEach],
      [map], [mapValues]) is an association list in enumeration order;
    - a property that may be absent ([undefined]/[null]) is an [option];
    - JavaScript numbers are kept abstract behind the interface [NumberOps]
      (IEEE-754 doubles in the original), so that no theorem relies on exact
      arithmetic; examples are evaluated on exact decimals;
    - a dereference of [undefined] (a [TypeError] in the original) is the
      [TypeError] constructor of [result];
    - [translate] of i18n-calypso is the identity with argument
      interpolation (no locale loaded). *)

From Stdlib Require Import Ascii String QArith Qround.
From stdpp Require Import gmap strings list fin_maps.

Open Scope string_scope.

(** ** JavaScript values *)

Module JS.

(** Truthiness of an optional string: [undefined] and [""] are falsy. *)
Definition truthy (o : option string) : bool :=
  match o with
  | Some s => negb (String.eqb s "")
  | None => false
  end.

(** [x === 'lit'] for a possibly absent string [x]. *)
Definition eq_lit (lit : string) (o : option string) : bool :=
  match o with
  | Some s => String.eqb lit s
  | None => false
  end.

(** lodash [includes( array, value )] on an array of strings. *)
Definition includes (l : list string) (o : option string) : bool :=
  match o with
  | Some s => existsb (String.eqb s) l
  | None => false
  end.

(** The property key an optional string is converted to by [x in o] and
    [o[ x ]]. *)
Definition prop_key (o : option string) : string :=
  match o with
  | Some s => s
  | None => "undefined"
  end.

(** Truthiness of an optional object: any object is truthy. *)
Definition present {A : Type} (o : option A) : bool :=
  match o with
  | Some _ => true
  | None => false
  end.

(** Outcome of code that can dereference [undefined]. *)
Inductive result (A : Type) : Type :=
| Ok (a : A)
| TypeError.
Arguments Ok {A} a.
Arguments TypeError {A}.

Definition bind {A B : Type} (r : result A) (k : A → result B) : result B :=
  match r with
  | Ok a => k a
  | TypeError => TypeError
  end.

(** [Array.prototype.map] with a callback that can throw: elements are
    visited left to right and the first exception aborts the loop. *)
Fixpoint mapM {A B : Type} (f : A → result B) (l : list A) : result (list B) :=
  match l with
  | [] => Ok []
  | x :: l' => bind (f x) (λ y, bind (mapM f l') (λ ys, Ok (y :: ys)))
  end.

Definition is_digit (c : ascii) : bool :=
  (48 <=? nat_of_ascii c)%nat && (nat_of_ascii c <=? 57)%nat.

Definition is_lower (c : ascii) : bool :=
  (97 <=? nat_of_ascii c)%nat && (nat_of_ascii c <=? 122)%nat.

(** White space removed by [String.prototype.trim] (ASCII part). *)
Definition is_space (c : ascii) : bool :=
  let n := nat_of_ascii c in
  (n =? 32)%nat || ((9 <=? n)%nat && (n <=? 13)%nat).

Definition chars (s : string) : list ascii := list_ascii_of_string s.
Definition of_chars (l : list ascii) : string := string_of_list_ascii l.

Fixpoint drop_while (p : ascii → bool) (l : list ascii) : list ascii :=
  match l with
  | [] => []
  | c :: l' => if p c then drop_while p l' else l
  end.

Fixpoint take_while (p : ascii → bool) (l : list ascii) : list ascii :=
  match l with
  | [] => []
  | c :: l' => if p c then c :: take_while p l' else []
  end.

(** [s.trim()] *)
Definition trim (s : string) : string :=
  of_chars (rev (drop_while is_space (rev (drop_while is_space (chars s))))).

(** [s.split( '-' )[0]]: the part of [s] before the first dash. *)
Definition before_dash (s : string) : string :=
  of_chars (take_while (λ c, negb (Ascii.eqb c "-")) (chars s)).

(** lodash [uniq]: the first occurrence of every element is kept. *)
Fixpoint uniq (l : list string) : list string :=
  match l with
  | [] => []
  | x :: l' => x :: filter (λ y, y ≠ x) (uniq l')
  end.

(** [Set.prototype.add]: a set keeps its elements in insertion order. *)
Definition set_add {A : Type} `{EqDecision A} (x : A) (s : list A) : list A :=
  if decide (x ∈ s) then s else s ++ [x].

(** A left-to-right loop whose body can throw. *)
Fixpoint foldM {A B : Type} (f : B → A → result B) (l : list A) (b : B) : result B :=
  match l with
  | [] => Ok b
  | x :: l' => bind (f b x) (foldM f l')
  end.

(** [l] without the prefix [p], when [l] starts with [p]. *)
Fixpoint strip_prefix (p l : list ascii) : option (list ascii) :=
  match p, l with
  | [], _ => Some l
  | c :: p', d :: l' => if Ascii.eqb c d then strip_prefix p' l' else None
  | _ :: _, [] => None
  end.

(** lodash [find] *)
Definition find {A : Type} (p : A → bool) (l : list A) : option A :=
  List.find p l.

End JS.

Import JS.

(** ** Numbers *)

(** The operations on JavaScript numbers that the selectors use.  [num_round2]
    is lodash [round( x, 2 )]; [num_of_string] is the conversion applied to a
    string operand of [*]; [num_parseFloat] is the global [parseFloat] on a
    string; [num_truthy] is the truthiness of a number (false for zero and
    NaN); [num_lt a b] is [a < b], also written [b > a], and [num_le a b] is
    [a <= b], also written [b >= a]. *)
Class NumberOps (num : Type) := {
  num_of_Z : Z → num;
  num_nan : num;
  num_add : num → num → num;
  num_sub : num → num → num;
  num_mul : num → num → num;
  num_lt : num → num → bool;
  num_le : num → num → bool;
  num_isFinite : num → bool;
  num_truthy : num → bool;
  num_round2 : num → num;
  num_of_string : string → num;
  num_parseFloat : string → num;
}.

(** A form field that holds a number, the text typed by the user, or
    nothing. *)
Inductive jsval (num : Type) : Type :=
| JUndefined
| JNull
| JStr (s : string)
| JNum (n : num).
Arguments JUndefined {num}.
Arguments JNull {num}.
Arguments JStr {num} s.
Arguments JNum {num} n.

Section Values.
Context {num : Type} `{NumberOps num}.

(** The numeric conversion of an operand of [*], [<] or [>=]. *)
Definition toNumber (v : jsval num) : num :=
  match v with
  | JUndefined => num_nan
  | JNull => num_of_Z 0
  | JStr s => num_of_string s
  | JNum n => n
  end.

(** [parseFloat( v )]: a number prints and parses back to itself (up to the
    sign of zero); the texts of [undefined] and [null] do not start with a
    number. *)
Definition parseFloat (v : jsval num) : num :=
  match v with
  | JUndefined | JNull => num_nan
  | JStr s => num_parseFloat s
  | JNum n => n
  end.

(** lodash [isNil] *)
Definition isNil (v : jsval num) : bool :=
  match v with
  | JUndefined | JNull => true
  | _ => false
  end.

(** ['' === v] *)
Definition is_empty_string (v : jsval num) : bool :=
  match v with
  | JStr s => String.eqb "" s
  | _ => false
  end.

(** lodash [isFinite]: only values of type number qualify. *)
Definition isFinite (v : jsval num) : bool :=
  match v with
  | JNum n => num_isFinite n
  | _ => false
  end.

(** [if ( ! x ) x = 0] on a possibly absent accumulator. *)
Definition or_zero (o : option num) : num :=
  match o with
  | Some n => if num_truthy n then n else num_of_Z 0
  | None => num_of_Z 0
  end.

End Values.

(** ** Data model *)

(** An address of the form: the edited [values], the normalization state and
    the server's verdicts. *)
Record Address := {
  values : gmap string string;
  isNormalized : bool;
  isUnverifiable : bool;
  normalized : option (gmap string string);
  ignoreValidation : option (gmap string bool);
  fieldErrors : option (gmap string string);
}.

(** [fieldsToValidate]: a flag is [true] when the property is strictly
    [true] in the original. *)
Record FieldsToValidate := {
  originPhone : bool;
  destinationPhone : bool;
}.

(** What the selectors import from outside this module: the tables of
    [./constants], the location selectors ([hasStates], [getCountryName]),
    evaluated on the application state at hand, and the helper
    [lib/utils/get-address-values]. *)
Class Collaborators := {
  ACCEPTED_USPS_ORIGIN_COUNTRIES : list string;
  US_MILITARY_STATES : list string;
  USPS_ITN_REQUIRED_DESTINATIONS : list string;
  hasStates : option string → bool;
  getCountryName : option string → string;
  getAddressValues : Address → gmap string string;
}.

(** ** Messages *)

Module Msg.
Definition required := "This field is required".
Definition name_or_company := "Either Name or Company field is required".
Definition postcode_format := "Invalid ZIP/Postal code format".
Definition origin_phone_required :=
  "An origin address phone number is required for this shipment.".
Definition phone_format :=
  "Customs forms require a 10-digit phone number. " ++
  "Please edit your phone number so it has at most 10 digits.".
Definition destination_phone_required :=
  "A destination address phone number is required for this shipment.".
Definition address_not_recognized :=
  "This address is not recognized. Please try another.".
End Msg.

(** ** Address validation *)

(** [/^\d{5}(?:-\d{4})?$/.test( postcode )]; an absent postcode is tested as
    the text of [undefined]. *)
Definition postcode_matches (postcode : option string) : bool :=
  match postcode with
  | None => false
  | Some s =>
      let cs := chars s in
      let zip := take 5 cs in
      let ext := drop 5 cs in
      (length zip =? 5)%nat && forallb is_digit zip &&
      match ext with
      | [] => true
      | c :: plus4 =>
          Ascii.eqb c "-" && (length plus4 =? 4)%nat && forallb is_digit plus4
      end
  end.

(** [phone.split( /\D+/g ).join( '' ).replace( /^1/, '' ).length] *)
Definition phone_digits (phone : string) : nat :=
  match List.filter is_digit (chars phone) with
  | c :: ds => if Ascii.eqb c "1" then length ds else S (length ds)
  | [] => 0
  end.

Section AddressErrors.
Context `{Collaborators}.

Definition requiredFields : list string := ["address"; "city"; "postcode"; "country"].

Definition getRawAddressErrors (addressData : Address)
    (fieldsToValidate : FieldsToValidate) : gmap string string :=
  let av := getAddressValues addressData in
  let name := av !! "name" in
  let company := av !! "company" in
  let phone := av !! "phone" in
  let postcode := av !! "postcode" in
  let state := av !! "state" in
  let country := av !! "country" in
  let errors : gmap string string := ∅ in
  let errors :=
    foldl (λ errors field,
             if truthy (values addressData !! field) then errors
             else <[field := Msg.required]> errors)
          errors requiredFields in
  let errors :=
    if negb (truthy name) && negb (truthy company)
    then <["company" := Msg.name_or_company]>
           (<["name" := Msg.name_or_company]> errors)
    else errors in
  let errors :=
    if includes ACCEPTED_USPS_ORIGIN_COUNTRIES country
       && negb (postcode_matches postcode)
    then <["postcode" := Msg.postcode_format]> errors
    else errors in
  let errors :=
    if negb (truthy state) && hasStates country
    then <["state" := Msg.required]> errors
    else errors in
  let errors :=
    if originPhone fieldsToValidate then
      if negb (truthy phone)
      then <["phone" := Msg.origin_phone_required]> errors
      else if negb (phone_digits (default "" phone) =? 10)%nat
      then <["phone" := Msg.phone_format]> errors
      else errors
    else errors in
  let errors :=
    if destinationPhone fieldsToValidate && negb (truthy phone)
    then <["phone" := Msg.destination_phone_required]> errors
    else errors in
  errors.

(** [Object.keys( errors ).forEach( field => { if ( ignoreValidation[ field ] )
    delete errors[ field ] } )] *)
Definition suppress_ignored (ignoreValidation : gmap string bool)
    (errors : gmap string string) : gmap string string :=
  filter (λ kv, ignoreValidation !! kv.1 ≠ Some true) errors.

Definition getAddressErrors (addressData : Address)
    (fieldsToValidate : FieldsToValidate) : gmap string string :=
  let bypass :=
    if (isNormalized addressData || isUnverifiable addressData)
       && negb (present (normalized addressData))
    then fieldErrors addressData
    else None in
  match bypass with
  | Some fieldErrors => fieldErrors
  | None =>
      if isNormalized addressData && negb (present (normalized addressData))
      then {[ "address" := Msg.address_not_recognized ]}
      else
        let errors := getRawAddressErrors addressData fieldsToValidate in
        match ignoreValidation addressData with
        | Some ignoreValidation => suppress_ignored ignoreValidation errors
        | None => errors
        end
  end.

End AddressErrors.

(** ** Objects with enumerated keys *)

Module Obj.

(** An object as the list of its own properties in enumeration order. *)
Abbreviation t A := (list (string * A)%type) (only parsing).

(** [o[ k ]] *)
Fixpoint get {A : Type} (o : t A) (k : string) : option A :=
  match o with
  | [] => None
  | (k', v) :: o' => if String.eqb k' k then Some v else get o' k
  end.

(** lodash [mapValues( o, f )] with [f] called on the value and the key. *)
Definition mapValues {A B : Type} (f : A → string → B) (o : t A) : t B :=
  map (λ kv, (kv.1, f kv.2 kv.1)) o.

(** [mapValues] with a callback that can throw. *)
Definition mapValuesM {A B : Type} (f : A → string → result B) (o : t A)
    : result (t B) :=
  mapM (λ kv, bind (f kv.2 kv.1) (λ b, Ok (kv.1, b))) o.

(** lodash [map( o, f )] on the values, in enumeration order. *)
Definition vals {A : Type} (o : t A) : list A := map snd o.

(** The array index a property key denotes, if any: a canonical decimal
    numeral below [2^32 - 1]. *)
Definition array_index (k : string) : option N :=
  match chars k with
  | [] => None
  | c :: rest =>
      if forallb is_digit (c :: rest)
         && (negb (Ascii.eqb c "0") || (length rest =? 0)%nat)
      then
        let n := fold_left (λ acc d, (acc * 10 + (N_of_ascii d - 48))%N) (c :: rest) 0%N in
        if (n <? 4294967295)%N then Some n else None
      else None
  end.

(** Whether a new key [k] is enumerated before the existing key [k']:
    array indices come first, in ascending order; the other keys follow in
    the order of their creation. *)
Definition enumerated_before (k k' : string) : bool :=
  match array_index k, array_index k' with
  | Some n, Some n' => (n <? n')%N
  | Some _, None => true
  | None, _ => false
  end.

(** Creation of the property [k] in an object that does not have it. *)
Fixpoint create {A : Type} (k : string) (v : A) (o : t A) : t A :=
  match o with
  | [] => [(k, v)]
  | (k', v') :: o' =>
      if enumerated_before k k' then (k, v) :: o
      else (k', v') :: create k v o'
  end.

(** Assignment to an existing property keeps its place. *)
Fixpoint overwrite {A : Type} (k : string) (v : A) (o : t A) : t A :=
  match o with
  | [] => []
  | (k', v') :: o' =>
      if String.eqb k' k then (k', v) :: o' else (k', v') :: overwrite k v o'
  end.

(** [o[ k ] = v] *)
Definition set {A : Type} (k : string) (v : A) (o : t A) : t A :=
  match get o k with
  | Some _ => overwrite k v o
  | None => create k v o
  end.

(** lodash [pick( source, keys )] for own keys of a flat object: the picked
    properties are assigned to a fresh object in the order of [keys]. *)
Definition pick {A : Type} (source : gmap string A) (keys : list string) : t A :=
  foldl (λ o k, match source !! k with
                | Some v => set k v o
                | None => o
                end) [] keys.

End Obj.

(** ** Packages and customs data *)

Module Package.

(** An item of a package; its display name is not read by the selectors. *)
Record item (num : Type) := {
  product_id : string;
  quantity : num;
}.
Arguments product_id {num} _.
Arguments quantity {num} _.

Record t (num : Type) := {
  box_id : option string;
  items : list (item num);
  weight : jsval num;
  length : jsval num;
  width : jsval num;
  height : jsval num;
  contentsType : option string;
  contentsExplanation : option string;
  restrictionType : option string;
  restrictionComments : option string;
  itn : option string;
}.
Arguments box_id {num} _.
Arguments items {num} _.
Arguments weight {num} _.
Arguments length {num} _.
Arguments width {num} _.
Arguments height {num} _.
Arguments contentsType {num} _.
Arguments contentsExplanation {num} _.
Arguments restrictionType {num} _.
Arguments restrictionComments {num} _.
Arguments itn {num} _.

End Package.

Module Customs.

Record item (num : Type) := {
  description : option string;
  weight : jsval num;
  value : jsval num;
  tariffNumber : option string;
}.
Arguments description {num} _.
Arguments weight {num} _.
Arguments value {num} _.
Arguments tariffNumber {num} _.

Record t (num : Type) := {
  items : gmap string (item num);
  ignoreWeightValidation : gmap string bool;
  ignoreValueValidation : gmap string bool;
}.
Arguments items {num} _.
Arguments ignoreWeightValidation {num} _.
Arguments ignoreValueValidation {num} _.

End Customs.

(** The result of [getCustomsErrors]. *)
Module CustomsErrors.
Record t := {
  packages : Obj.t (gmap string string);
  items : Obj.t (gmap string string);
}.
End CustomsErrors.

Module CustomsMsg.
Definition contents_explanation :=
  "Please describe what kind of goods this package contains".
Definition restriction_comments :=
  "Please describe what kind of restrictions this package must have".
Definition itn_format := "Invalid format".
Definition itn_threshold (code : string) :=
  "International Transaction Number is required for shipping items valued over $2,500 per tariff number. " ++
  "Products with tariff number " ++ code ++ " add up to more than $2,500.".
Definition itn_country (country : string) :=
  "International Transaction Number is required for shipments to " ++ country.
Definition description := "You must provide a clear, specific description for every item.".
Definition weight_positive := "Weight must be greater than zero".
Definition value_positive := "Declared value must be greater than zero".
Definition tariff_length := "The tariff number must be 6 digits long".
End CustomsMsg.

Module PackageMsg.
Definition box_id := "Please select a package".
Definition weight := "Invalid weight".
Definition dimensions := "Package dimensions must be greater than zero".
End PackageMsg.

(** [/^(?:(?:AES X\d{14})|(?:NOEEI 30\.\d{1,2}(?:\([a-z]\)(?:\(\d\))?)?))$/.test( itn )] *)
Definition itn_matches (itn : string) : bool :=
  let aes :=
    match strip_prefix (chars "AES X") (chars itn) with
    | Some ds => (List.length ds =? 14)%nat && forallb is_digit ds
    | None => false
    end in
  let digit_group (l : list ascii) :=
    match l with
    | [ "("%char; d; ")"%char ] => is_digit d
    | _ => false
    end in
  let subsection (l : list ascii) :=
    match l with
    | [] => true
    | "("%char :: c :: ")"%char :: l' =>
        is_lower c && match l' with [] => true | _ => digit_group l' end
    | _ => false
    end in
  let noeei :=
    match strip_prefix (chars "NOEEI 30.") (chars itn) with
    | Some (d1 :: l) =>
        is_digit d1 &&
        (subsection l ||
         match l with
         | d2 :: l' => is_digit d2 && subsection l'
         | [] => false
         end)
    | _ => false
    end in
  aes || noeei.

Section PackagesAndCustoms.
Context {num : Type} `{NumberOps num} `{Collaborators}.

(** ** Package validation *)

(** [dimension => ! isFinite( dimension ) || 0 >= dimension] *)
Definition isInvalidDimension (dimension : jsval num) : bool :=
  negb (isFinite dimension) || num_le (toNumber dimension) (num_of_Z 0).

Definition packageErrors (pckg : Package.t num) : gmap string string :=
  let errors : gmap string string := ∅ in
  let errors :=
    if eq_lit "not_selected" (Package.box_id pckg)
    then <["box_id" := PackageMsg.box_id]> errors else errors in
  let errors :=
    if isInvalidDimension (Package.weight pckg)
    then <["weight" := PackageMsg.weight]> errors else errors in
  let hasInvalidDimensions :=
    existsb isInvalidDimension
      [Package.length pckg; Package.width pckg; Package.height pckg] in
  if hasInvalidDimensions
  then <["dimensions" := PackageMsg.dimensions]> errors else errors.

Definition getPackagesErrors (values : Obj.t (Package.t num))
    : Obj.t (gmap string string) :=
  Obj.mapValues (λ pckg _, packageErrors pckg) values.

(** ** Customs validation *)

(** [uniq( flatten( map( packages, pckg => map( pckg.items, 'product_id' ) ) ) )] *)
Definition usedProductIds (packages : Obj.t (Package.t num)) : list string :=
  uniq (concat (map (λ pckg, map Package.product_id (Package.items pckg))
                    (Obj.vals packages))).

(** [zipObject( usedProductIds, fill( Array( usedProductIds.length ), 0 ) )] *)
Definition zeroByProductId (ids : list string) : gmap string num :=
  foldl (λ m id, <[id := num_of_Z 0]> m) ∅ ids.

(** [valuesByProductId[ product_id ] += quantity * customs.items[ product_id ].value] *)
Definition addItemValue (customs : Customs.t num) (valuesByProductId : gmap string num)
    (it : Package.item num) : result (gmap string num) :=
  let product_id := Package.product_id it in
  match Customs.items customs !! product_id with
  | None => TypeError
  | Some itemData =>
      let current := default num_nan (valuesByProductId !! product_id) in
      let declared := num_mul (Package.quantity it) (toNumber (Customs.value itemData)) in
      Ok (<[product_id := num_add current declared]> valuesByProductId)
  end.

(** First pass: the declared value of every used product over all packages. *)
Definition getValuesByProductId (packages : Obj.t (Package.t num))
    (customs : Customs.t num) : result (gmap string num) :=
  foldM (λ m pckg, foldM (addItemValue customs) (Package.items pckg) m)
        (Obj.vals packages)
        (zeroByProductId (usedProductIds packages)).

(** The body of the second loop, for one picked product. *)
Definition addTariffValue (valuesByProductId : gmap string num)
    (valuesByTariffNumber : gmap string num)
    (entry : string * Customs.item num) : gmap string num :=
  let '(productId, itemData) := entry in
  match Customs.tariffNumber itemData with
  | Some tariffNumber =>
      if truthy (Some tariffNumber) && (String.length tariffNumber =? 6)%nat
      then
        let current := or_zero (valuesByTariffNumber !! tariffNumber) in
        let declared := default num_nan (valuesByProductId !! productId) in
        <[tariffNumber := num_add current declared]> valuesByTariffNumber
      else valuesByTariffNumber
  | None => valuesByTariffNumber
  end.

(** Second pass: the declared value of every tariff class. *)
Definition getValuesByTariffNumber (customs : Customs.t num)
    (ids : list string) (valuesByProductId : gmap string num) : gmap string num :=
  foldl (addTariffValue valuesByProductId) ∅ (Obj.pick (Customs.items customs) ids).

(** [2500 < valuesByTariffNumber[ tariffNumber ]]; a missing entry compares
    as NaN. *)
Definition above2500 (valuesByTariffNumber : gmap string num)
    (tariffNumber : option string) : bool :=
  match valuesByTariffNumber !! prop_key tariffNumber with
  | Some v => num_lt (num_of_Z 2500) v
  | None => false
  end.

(** The body of the loop that fills the set [classesAbove2500usd]. *)
Definition addClassAbove2500usd (customs : Customs.t num)
    (valuesByTariffNumber : gmap string num) (classes : list (option string))
    (it : Package.item num) : result (list (option string)) :=
  match Customs.items customs !! Package.product_id it with
  | None => TypeError
  | Some itemData =>
      let tariffNumber := Customs.tariffNumber itemData in
      if above2500 valuesByTariffNumber tariffNumber
      then Ok (set_add tariffNumber classes)
      else Ok classes
  end.

(** The set [classesAbove2500usd] of a package, in insertion order. *)
Definition getClassesAbove2500usd (customs : Customs.t num)
    (valuesByTariffNumber : gmap string num) (pckg : Package.t num)
    : result (list (option string)) :=
  foldM (addClassAbove2500usd customs valuesByTariffNumber) (Package.items pckg) [].

Definition customsPackageErrors (customs : Customs.t num)
    (valuesByTariffNumber : gmap string num)
    (destinationCountryCode : option string) (destinationCountryName : string)
    (pckg : Package.t num) : result (gmap string string) :=
  let errors : gmap string string := ∅ in
  let errors :=
    if eq_lit "other" (Package.contentsType pckg)
       && negb (truthy (Package.contentsExplanation pckg))
    then <["contentsExplanation" := CustomsMsg.contents_explanation]> errors
    else errors in
  let errors :=
    if eq_lit "other" (Package.restrictionType pckg)
       && negb (truthy (Package.restrictionComments pckg))
    then <["restrictionComments" := CustomsMsg.restriction_comments]> errors
    else errors in
  bind (getClassesAbove2500usd customs valuesByTariffNumber pckg)
    (λ classesAbove2500usd,
       Ok (if truthy (Package.itn pckg) then
             if negb (itn_matches (default "" (Package.itn pckg)))
             then <["itn" := CustomsMsg.itn_format]> errors
             else errors
           else if negb (eq_lit "CA" destinationCountryCode) then
             match classesAbove2500usd with
             | code :: _ => <["itn" := CustomsMsg.itn_threshold (prop_key code)]> errors
             | [] =>
                 if includes USPS_ITN_REQUIRED_DESTINATIONS destinationCountryCode
                 then <["itn" := CustomsMsg.itn_country destinationCountryName]> errors
                 else errors
             end
           else errors)).

Definition customsItemErrors (customs : Customs.t num)
    (itemData : Customs.item num) (productId : string) : gmap string string :=
  let itemErrors : gmap string string := ∅ in
  let itemErrors :=
    if negb (truthy (Customs.description itemData))
       || (String.length (default "" (Customs.description itemData)) <? 3)%nat
    then <["description" := CustomsMsg.description]> itemErrors
    else itemErrors in
  let itemErrors :=
    if negb (bool_decide (Customs.ignoreWeightValidation customs !! productId = Some true)) then
      if isNil (Customs.weight itemData) || is_empty_string (Customs.weight itemData)
      then <["weight" := Msg.required]> itemErrors
      else if negb (num_lt (num_of_Z 0) (parseFloat (Customs.weight itemData)))
      then <["weight" := CustomsMsg.weight_positive]> itemErrors
      else itemErrors
    else itemErrors in
  let itemErrors :=
    if negb (bool_decide (Customs.ignoreValueValidation customs !! productId = Some true)) then
      if isNil (Customs.value itemData) || is_empty_string (Customs.value itemData)
      then <["value" := Msg.required]> itemErrors
      else if negb (num_lt (num_of_Z 0) (parseFloat (Customs.value itemData)))
      then <["value" := CustomsMsg.value_positive]> itemErrors
      else itemErrors
    else itemErrors in
  if truthy (Customs.tariffNumber itemData)
     && negb (String.length (default "" (Customs.tariffNumber itemData)) =? 6)%nat
  then <["tariffNumber" := CustomsMsg.tariff_length]> itemErrors
  else itemErrors.

Definition getCustomsErrors (packages : Obj.t (Package.t num))
    (customs : Customs.t num) (destinationCountryCode : option string)
    (destinationCountryName : string) : result CustomsErrors.t :=
  let ids := usedProductIds packages in
  bind (getValuesByProductId packages customs) (λ valuesByProductId,
    let valuesByTariffNumber := getValuesByTariffNumber customs ids valuesByProductId in
    bind (Obj.mapValuesM
            (λ pckg _, customsPackageErrors customs valuesByTariffNumber
                         destinationCountryCode destinationCountryName pckg)
            packages) (λ packageErrors,
      Ok {| CustomsErrors.packages := packageErrors;
            CustomsErrors.items :=
              Obj.mapValues (customsItemErrors customs)
                            (Obj.pick (Customs.items customs) ids) |})).

End PackagesAndCustoms.

(** ** Rates *)

Module Rates.

(** A rate quoted by the server. *)
Record quote (num : Type) := {
  service_id : option string;
  title : string;
  carrier_id : option string;
  rate : num;
  retail_rate : num;
}.
Arguments service_id {num} _.
Arguments title {num} _.
Arguments carrier_id {num} _.
Arguments rate {num} _.
Arguments retail_rate {num} _.

(** An error reported by the rates provider. *)
Record providerError := {
  userMessage : option string;
  message : option string;
}.

Record group (num : Type) := {
  rates : list (quote num);
  errors : list providerError;
}.
Arguments rates {num} _.
Arguments errors {num} _.

(** The quotes of one package: the [default] group and the groups of the
    signature levels, by name. *)
Record quotes (num : Type) := {
  default : group num;
  signature : gmap string (group num);
}.
Arguments default {num} _.
Arguments signature {num} _.

(** The user's pick for one package; an absent [signatureRequired] is
    [undefined]. *)
Record selection := {
  serviceId : option string;
  signatureRequired : option string;
}.

Record t (num : Type) := {
  values : Obj.t selection;
  available : Obj.t (quotes num);
}.
Arguments values {num} _.
Arguments available {num} _.

(** [key in availableRates[ packageId ]] and [availableRates[ packageId ][ key ]] *)
Definition group_at {num : Type} (a : quotes num) (key : string)
    : option (group num) :=
  if String.eqb key "default" then Some (default a) else signature a !! key.

End Rates.

Module RatesMsg.
Definition no_rate := "We couldn't get a rate for this package, please try again.".
Definition none_available :=
  "No rates available, please double check dimensions and weight or try using different packaging.".
Definition choose := "Please choose a rate".
Definition signature_required := "Signature Required".
End RatesMsg.

(** [err.userMessage || err.message], kept when it is not blank
    ([filter( Boolean )]). *)
Definition renderable (err : Rates.providerError) : option string :=
  let text :=
    if truthy (Rates.userMessage err) then Rates.userMessage err
    else Rates.message err in
  if truthy text then text else None.

Section RatesErrors.
Context {num : Type}.

(** The callback of [getRatesErrors] for the package [boxId]. *)
Definition packageRatesErrors (selectedRates : Obj.t Rates.selection)
    (rate : Rates.quotes num) (boxId : string) : list string :=
  match Rates.errors (Rates.default rate) with
  | _ :: _ =>
      let messages := omap renderable (Rates.errors (Rates.default rate)) in
      match messages with
      | _ :: _ => messages
      | [] => [RatesMsg.no_rate]
      end
  | [] =>
      if truthy (Obj.get selectedRates boxId ≫= Rates.serviceId) then []
      else
        match Rates.rates (Rates.default rate) with
        | [] => [RatesMsg.none_available]
        | _ :: _ => [RatesMsg.choose]
        end
  end.

Definition getRatesErrors (rates : Rates.t num) : Obj.t (list string) :=
  Obj.mapValues (packageRatesErrors (Rates.values rates)) (Rates.available rates).

End RatesErrors.

(** [getSidebarErrors] *)
Definition getSidebarErrors (paperSize : option string) : gmap string string :=
  if negb (truthy paperSize) then {[ "paperSize" := Msg.required ]} else ∅.

(** ** Price breakdown *)

Module Price.

Record addon (num : Type) := {
  addon_title : string;
  addon_rate : num;
}.
Arguments addon_title {num} _.
Arguments addon_rate {num} _.

Record line (num : Type) := {
  title : string;
  retailRate : num;
  rateWithDiscount : num;
  addons : list (addon num);
  carrierId : option string;
  carrierTitle : string;
}.
Arguments title {num} _.
Arguments retailRate {num} _.
Arguments rateWithDiscount {num} _.
Arguments addons {num} _.
Arguments carrierId {num} _.
Arguments carrierTitle {num} _.

Record breakdown (num : Type) := {
  prices : list (line num);
  discount : num;
  total : num;
}.
Arguments prices {num} _.
Arguments discount {num} _.
Arguments total {num} _.

End Price.

Section PriceBreakdown.
Context {num : Type} `{NumberOps num}.

(** [find( rates, r => serviceId === r.service_id )] *)
Definition findRate (serviceId : option string) (rates : list (Rates.quote num))
    : option (Rates.quote num) :=
  find (λ r, bool_decide (serviceId = Rates.service_id r)) rates.

(** The rates matched for one selected package: [foundRate] of the default
    group and [foundRateSignatureRequired] of the signature level, or nothing
    when the package has no quotes or no matching default rate. *)
Definition foundRates (availableRates : Obj.t (Rates.quotes num))
    (packageId : string) (selected : Rates.selection)
    : option (Rates.quote num * option (Rates.quote num)) :=
  match Obj.get availableRates packageId with
  | None => None
  | Some quotes =>
      let packageRates := Rates.rates (Rates.default quotes) in
      let foundRateSignatureRequired :=
        match Rates.group_at quotes (prop_key (Rates.signatureRequired selected)) with
        | Some level => findRate (Rates.serviceId selected) (Rates.rates level)
        | None => None
        end in
      match findRate (Rates.serviceId selected) packageRates with
      | Some foundRate => Some (foundRate, foundRateSignatureRequired)
      | None => None
      end
  end.

(** The price line pushed for a package. *)
Definition priceLine (foundRate : Rates.quote num)
    (foundRateSignatureRequired : option (Rates.quote num)) : Price.line num :=
  {| Price.title := Rates.title foundRate;
     Price.retailRate := Rates.retail_rate foundRate;
     Price.rateWithDiscount := Rates.rate foundRate;
     Price.addons :=
       match foundRateSignatureRequired with
       | Some signed =>
           [ {| Price.addon_title := RatesMsg.signature_required;
                Price.addon_rate := num_sub (Rates.rate signed) (Rates.rate foundRate) |} ]
       | None => []
       end;
     Price.carrierId := Rates.carrier_id foundRate;
     Price.carrierTitle := trim (before_dash (Rates.title foundRate)) |}.

(** [rateTotal] at the end of the loop body. *)
Definition rateTotal (foundRate : Rates.quote num)
    (foundRateSignatureRequired : option (Rates.quote num)) : num :=
  match foundRateSignatureRequired with
  | Some signed => Rates.rate signed
  | None => Rates.rate foundRate
  end.

(** One iteration of [for ( const packageId in selectedRates )] on the
    variables [prices], [discount] and [total]. *)
Definition priceStep (availableRates : Obj.t (Rates.quotes num))
    (acc : list (Price.line num) * num * num) (entry : string * Rates.selection)
    : list (Price.line num) * num * num :=
  let '(prices, discount, total) := acc in
  match foundRates availableRates entry.1 entry.2 with
  | None => acc
  | Some (foundRate, foundRateSignatureRequired) =>
      let rateDiscount := num_sub (Rates.retail_rate foundRate) (Rates.rate foundRate) in
      ((prices ++ [priceLine foundRate foundRateSignatureRequired])%list,
       num_add discount (num_round2 rateDiscount),
       num_add total (rateTotal foundRate foundRateSignatureRequired))
  end.

(** The body of [getTotalPriceBreakdown] once the form is at hand. *)
Definition totalPriceBreakdown (rates : Rates.t num) : option (Price.breakdown num) :=
  let '(prices, discount, total) :=
    foldl (priceStep (Rates.available rates)) ([], num_of_Z 0, num_of_Z 0)
          (Rates.values rates) in
  match prices with
  | [] => None
  | _ :: _ => Some {| Price.prices := prices; Price.discount := discount; Price.total := total |}
  end.

End PriceBreakdown.

(** ** Error trees *)

(** Modelled from the spec: [hasNonEmptyLeaves] of [lib/utils/tree] is not
    among the sources at hand; the spec describes it as the test that an
    error map "has any non-empty leaf".  The leaves of the error maps are
    messages; an absent subtree has no leaf. *)
Class Tree (A : Type) := hasNonEmptyLeaves : A → bool.

#[export] Instance leaf_tree : Tree string :=
  λ s, negb (String.eqb s "").

#[export] Instance list_tree {A : Type} `{Tree A} : Tree (list A) :=
  λ l, existsb hasNonEmptyLeaves l.

#[export] Instance gmap_tree {A : Type} `{Tree A} : Tree (gmap string A) :=
  λ m, existsb hasNonEmptyLeaves (map snd (map_to_list m)).

#[export] Instance obj_tree {A : Type} `{Tree A} : Tree (Obj.t A) :=
  λ o, existsb hasNonEmptyLeaves (Obj.vals o).

#[export] Instance option_tree {A : Type} `{Tree A} : Tree (option A) :=
  λ o, match o with Some t => hasNonEmptyLeaves t | None => false end.

#[export] Instance customs_tree : Tree CustomsErrors.t :=
  λ e, hasNonEmptyLeaves (CustomsErrors.packages e)
       || hasNonEmptyLeaves (CustomsErrors.items e).

(** ** Form state *)

Module Form.

Record packageSet (num : Type) := {
  selected : Obj.t (Package.t num);
}.
Arguments selected {num} _.

Record t (num : Type) := {
  origin : Address;
  destination : Address;
  packages : packageSet num;
  customs : Customs.t num;
  rates : Rates.t num;
}.
Arguments origin {num} _.
Arguments destination {num} _.
Arguments packages {num} _.
Arguments customs {num} _.
Arguments rates {num} _.

End Form.

Module ShippingLabel.
Record t (num : Type) := {
  loaded : bool;
  form : option (Form.t num);
  paperSize : option string;
}.
Arguments loaded {num} _.
Arguments form {num} _.
Arguments paperSize {num} _.
End ShippingLabel.

(** The part of the state tree the selectors read: the shipping labels by
    site and order,
    [state.extensions.woocommerce.woocommerceServices[ siteId ].shippingLabel[ orderId ]]. *)
Definition State (num : Type) : Type := gmap (Z * Z) (ShippingLabel.t num).

(** The object [getFormErrors] returns for a loaded form. *)
Module FormErrors.
Record t := {
  origin : gmap string string;
  destination : gmap string string;
  packages : Obj.t (gmap string string);
  customs : CustomsErrors.t;
  rates : Obj.t (list string);
  sidebar : gmap string string;
}.
End FormErrors.

Section Selectors.
Context {num : Type} `{NumberOps num} `{Collaborators}.

Definition getShippingLabel (state : State num) (orderId siteId : Z)
    : option (ShippingLabel.t num) :=
  state !! (siteId, orderId).

Definition isLoaded (state : State num) (orderId siteId : Z) : bool :=
  match getShippingLabel state orderId siteId with
  | Some shippingLabel => ShippingLabel.loaded shippingLabel
  | None => false
  end.

Definition getForm (state : State num) (orderId siteId : Z) : option (Form.t num) :=
  getShippingLabel state orderId siteId ≫= ShippingLabel.form.

Definition getTotalPriceBreakdown (state : State num) (orderId siteId : Z)
    : option (Price.breakdown num) :=
  match getForm state orderId siteId with
  | None => None
  | Some form => totalPriceBreakdown (Form.rates form)
  end.

(** ['US' === address.country && includes( US_MILITARY_STATES, address.state )] *)
Definition isMilitary (address : gmap string string) : bool :=
  eq_lit "US" (address !! "country") && includes US_MILITARY_STATES (address !! "state").

Definition isCustomsFormRequired (state : State num) (orderId siteId : Z) : bool :=
  match getForm state orderId siteId with
  | None => false
  | Some form =>
      let origin := getAddressValues (Form.origin form) in
      if isMilitary origin then true
      else
        let destination := getAddressValues (Form.destination form) in
        if isMilitary destination then true
        else negb (bool_decide (origin !! "country" = destination !! "country"))
  end.

(** [getFormErrors]; [None] is the empty object returned while the label is
    not loaded or has no form. *)
Definition getFormErrors (state : State num) (orderId siteId : Z)
    : result (option FormErrors.t) :=
  if negb (isLoaded state orderId siteId) then Ok None
  else
    match getShippingLabel state orderId siteId with
    | None => Ok None
    | Some shippingLabel =>
        match ShippingLabel.form shippingLabel with
        | None => Ok None
        | Some form =>
            let destinationCountryCode := values (Form.destination form) !! "country" in
            let destinationCountryName := getCountryName destinationCountryCode in
            let shouldValidateOriginPhone := isCustomsFormRequired state orderId siteId in
            let shouldValidateDestinationPhone := shouldValidateOriginPhone in
            let origin :=
              getAddressErrors (Form.origin form)
                {| originPhone := shouldValidateOriginPhone; destinationPhone := false |} in
            let destination :=
              getAddressErrors (Form.destination form)
                {| originPhone := false;
                   destinationPhone := shouldValidateDestinationPhone |} in
            let packages := getPackagesErrors (Form.selected (Form.packages form)) in
            bind (getCustomsErrors (Form.selected (Form.packages form))
                    (Form.customs form) destinationCountryCode destinationCountryName)
              (λ customs,
                 Ok (Some {| FormErrors.origin := origin;
                             FormErrors.destination := destination;
                             FormErrors.packages := packages;
                             FormErrors.customs := customs;
                             FormErrors.rates := getRatesErrors (Form.rates form);
                             FormErrors.sidebar :=
                               getSidebarErrors (ShippingLabel.paperSize shippingLabel) |}))
        end
    end.

(** The callback of [usedProductIds.map] in [isCustomsFormStepSubmitted]. *)
Definition isUnreviewed (customs : Customs.t num) (productId : string) : result bool :=
  match Customs.items customs !! productId with
  | None => TypeError
  | Some itemData =>
      Ok (negb (present (Customs.tariffNumber itemData))
          || bool_decide (Customs.ignoreWeightValidation customs !! productId = Some true)
          || bool_decide (Customs.ignoreValueValidation customs !! productId = Some true))
  end.

Definition isCustomsFormStepSubmitted (state : State num) (orderId siteId : Z)
    : result bool :=
  match getForm state orderId siteId with
  | None => Ok false
  | Some form =>
      let usedProductIds := usedProductIds (Form.selected (Form.packages form)) in
      bind (mapM (isUnreviewed (Form.customs form)) usedProductIds) (λ flags,
        Ok (negb (existsb id flags)))
  end.

(** The address condition of the [origin] and [destination] steps. *)
Definition addressFails (address : Address) (errors : option (gmap string string)) : bool :=
  negb (isNormalized address)
  || negb (bool_decide (Some (values address) = normalized address))
  || hasNonEmptyLeaves errors.

(** The condition of the [customs] step:
    [isCustomsFormRequired( .. ) && ( hasNonEmptyLeaves( errors.customs ) ||
    ! isCustomsFormStepSubmitted( .. ) )]. *)
Definition customsFails (state : State num) (orderId siteId : Z)
    (errors : option CustomsErrors.t) : result bool :=
  if isCustomsFormRequired state orderId siteId then
    if hasNonEmptyLeaves errors then Ok true
    else bind (isCustomsFormStepSubmitted state orderId siteId)
              (λ submitted, Ok (negb submitted))
  else Ok false.

Definition getFirstErroneousStep (state : State num) (orderId siteId : Z)
    : result (option string) :=
  match getForm state orderId siteId with
  | None => Ok None
  | Some form =>
      bind (getFormErrors state orderId siteId) (λ errors,
        if addressFails (Form.origin form) (FormErrors.origin <$> errors)
        then Ok (Some "origin")
        else if addressFails (Form.destination form) (FormErrors.destination <$> errors)
        then Ok (Some "destination")
        else if hasNonEmptyLeaves (FormErrors.packages <$> errors)
        then Ok (Some "packages")
        else
          bind (customsFails state orderId siteId (FormErrors.customs <$> errors))
            (λ customsFails : bool,
               if customsFails then Ok (Some "customs")
               else if hasNonEmptyLeaves (FormErrors.rates <$> errors)
               then Ok (Some "rates")
               else Ok None))
  end.

End Selectors.

(** ** An instance for the examples *)

(** Exact decimal arithmetic: a number is a reduced fraction, [None] is NaN.
    Infinities are outside this instance, and so are the texts in
    hexadecimal, octal or binary notation and the spellings of Infinity,
    which convert to NaN here. *)
Module Decimal.

Definition t : Type := option Q.

Definition of_Z (z : Z) : t := Some (inject_Z z).

(** The decimal [n / 10^places], e.g. [dec 595 2] for 5.95. *)
Definition dec (n : Z) (places : nat) : t :=
  Some (Qred (n # Pos.pow 10 (Pos.of_nat places))).

Definition lift2 (f : Q → Q → Q) (a b : t) : t :=
  match a, b with
  | Some x, Some y => Some (Qred (f x y))
  | _, _ => None
  end.

Definition lt (a b : t) : bool :=
  match a, b with
  | Some x, Some y => negb (Qle_bool y x)
  | _, _ => false
  end.

Definition le (a b : t) : bool :=
  match a, b with
  | Some x, Some y => Qle_bool x y
  | _, _ => false
  end.

Definition truthy (a : t) : bool :=
  match a with
  | Some x => negb (Qeq_bool x 0%Q)
  | None => false
  end.

(** [Math.round] of the value shifted by two decimal places, shifted back. *)
Definition round2 (a : t) : t :=
  match a with
  | Some x => Some (Qred (Qfloor (x * 100 + (1 # 2))%Q # 100))
  | None => None
  end.

Definition digits_val (ds : list ascii) : Z :=
  fold_left (λ acc d, (acc * 10 + (Z.of_nat (nat_of_ascii d) - 48))%Z) ds 0%Z.

Definition signed (cs : list ascii) : bool * list ascii :=
  match cs with
  | "-"%char :: r => (true, r)
  | "+"%char :: r => (false, r)
  | _ => (false, cs)
  end.

(** The longest decimal literal at the start of [cs], with what follows it. *)
Definition literal (cs : list ascii) : option (Q * list ascii) :=
  let '(negative, cs) := signed cs in
  let ip := take_while is_digit cs in
  let r := drop_while is_digit cs in
  let '(fp, r) :=
    match r with
    | "."%char :: r' => (take_while is_digit r', drop_while is_digit r')
    | _ => ([], r)
    end in
  if (List.length ip =? 0)%nat && (List.length fp =? 0)%nat then None
  else
    let mantissa := digits_val (ip ++ fp) # Pos.pow 10 (Pos.of_nat (List.length fp)) in
    let mantissa := if (List.length fp =? 0)%nat then inject_Z (digits_val ip) else mantissa in
    let '(scale, r) :=
      match r with
      | e :: r' =>
          if Ascii.eqb e "e" || Ascii.eqb e "E" then
            let '(down, r'') := signed r' in
            match take_while is_digit r'' with
            | [] => (0%Z, r)
            | ds => ((if down then - digits_val ds else digits_val ds)%Z,
                     drop_while is_digit r'')
            end
          else (0%Z, r)
      | [] => (0%Z, r)
      end in
    let q := Qred (mantissa * Qpower 10 scale)%Q in
    Some (if negative then Qred (- q)%Q else q, r).

Definition parse_float (s : string) : t :=
  fst <$> literal (drop_while is_space (chars s)).

Definition of_string (s : string) : t :=
  match chars (trim s) with
  | [] => Some 0%Q
  | cs =>
      match literal cs with
      | Some (q, []) => Some q
      | _ => None
      end
  end.

#[global] Instance ops : NumberOps t := {|
  num_of_Z := of_Z;
  num_nan := None;
  num_add := lift2 Qplus;
  num_sub := lift2 Qminus;
  num_mul := lift2 Qmult;
  num_lt := lt;
  num_le := le;
  num_isFinite := present;
  num_truthy := truthy;
  num_round2 := round2;
  num_of_string := of_string;
  num_parseFloat := parse_float;
|}.

End Decimal.

(** The collaborators of the examples: the addresses in use are the edited
    [values], and only the United States have states. *)
Module Example.

#[global] Instance collaborators : Collaborators := {|
  ACCEPTED_USPS_ORIGIN_COUNTRIES := ["US"; "PR"; "VI"; "GU"; "AS"; "UM"; "MH"; "FM"; "MP"];
  US_MILITARY_STATES := ["AA"; "AE"; "AP"];
  USPS_ITN_REQUIRED_DESTINATIONS := ["IR"; "SY"; "KP"; "CU"; "SD"];
  hasStates := eq_lit "US";
  getCountryName := prop_key;
  getAddressValues := values;
|}.

End Example.

(** ** The properties in the words of the specification *)

(** The messages of the provider errors as the specification words them:
    each error's user-facing message, or else its raw message, blanks
    removed. *)
Definition providerMessages (errors : list Rates.providerError) : list string :=
  filter (λ text, text ≠ "")
    (map (λ err,
            match Rates.userMessage err with
            | Some text => if decide (text = "") then default "" (Rates.message err) else text
            | None => default "" (Rates.message err)
            end) errors).

Section SpecWords.
Context {num : Type} `{NumberOps num}.

(** The packages that produce a price line, in the order of the selection:
    those with a selected rate and quotes among which the default list has a
    rate of the selected service; each comes with that rate and with the rate
    of the selected signature level, if one matches. *)
Definition pricedPackages (rates : Rates.t num)
    : list (Rates.quote num * option (Rates.quote num)) :=
  omap (λ entry, foundRates (Rates.available rates) entry.1 entry.2)
       (Rates.values rates).

(** [acc += f x] for every [x] of [l], from zero. *)
Definition accumulate {A : Type} (f : A → num) (l : list A) : num :=
  foldl (λ acc x, num_add acc (f x)) (num_of_Z 0) l.

End SpecWords.

Section CustomsWords.
Context {num : Type} `{NumberOps num}.

(** The items of all packages, in the order the loops visit them. *)
Definition allItems (packages : Obj.t (Package.t num)) : list (Package.item num) :=
  concat (map Package.items (Obj.vals packages)).

(** The value an item declares: its quantity times the customs value of its
    product. *)
Definition declaredValue (customs : Customs.t num) (it : Package.item num) : num :=
  match Customs.items customs !! Package.product_id it with
  | Some itemData => num_mul (Package.quantity it) (toNumber (Customs.value itemData))
  | None => num_nan
  end.

(** The used products of the tariff class [code]: their tariff number is
    [code] and has exactly 6 characters. *)
Definition classMembers (code : string) (picked : Obj.t (Customs.item num))
    : Obj.t (Customs.item num) :=
  filter (λ entry, Customs.tariffNumber entry.2 = Some code ∧ String.length code = 6)
         picked.

(** The value of a tariff class: the values of its products added up in
    order, a running sum that is zero or NaN being restarted from zero; no
    value when the class has no product. *)
Definition classValue (valuesByProductId : gmap string num) (start : option num)
    (members : Obj.t (Customs.item num)) : option num :=
  foldl (λ acc entry,
           Some (num_add (or_zero acc)
                         (default num_nan (valuesByProductId !! entry.1))))
        start members.

End CustomsWords.

(** ** Loop invariants *)

(** What holds of the object [pick] builds once the keys [seen] have been
    processed: it holds the entries of the source at these keys, once each. *)
Definition picked_so_far {A : Type} (source : gmap string A)
    (seen : list string) (o : Obj.t A) : Prop :=
  (∀ k v, (k, v) ∈ o ↔ k ∈ seen ∧ source !! k = Some v) ∧ NoDup o.*1.

(** The product of an item has an entry in [customs.items]. *)
Definition hasEntry {num : Type} (customs : Customs.t num) (it : Package.item num) : Prop :=
  is_Some (Customs.items customs !! Package.product_id it).

#[global] Instance hasEntry_dec {num : Type} (customs : Customs.t num)
    (it : Package.item num) : Decision (hasEntry customs it).
Proof. unfold hasEntry. apply _. Defined.

(** Every product referenced by an item of a package has an entry in
    [customs.items]. *)
Definition allEntries {num : Type} (packages : Obj.t (Package.t num))
    (customs : Customs.t num) : Prop :=
  ∀ pckg it, pckg ∈ Obj.vals packages → it ∈ Package.items pckg →
             is_Some (Customs.items customs !! Package.product_id it).

(** An address is military: its country is "US" and its state is in the
    military-state list. *)
Definition military `{Collaborators} (address : gmap string string) : Prop :=
  address !! "country" = Some "US"
  ∧ ∃ state, address !! "state" = Some state ∧ state ∈ US_MILITARY_STATES.

(** The first step that fails, the steps being evaluated in the order of the
    list and no further than the first failure. *)
Fixpoint firstFailing (steps : list (string * result bool)) : result (option string) :=
  match steps with
  | [] => Ok None
  | (step, fails) :: steps' =>
      bind fails (λ fails : bool, if fails then Ok (Some step) else firstFailing steps')
  end.

(** The customs fields of a product have been reviewed: its tariff number is
    present and the product is marked neither as ignoring weight validation
    nor as ignoring value validation. *)
Definition reviewed {num : Type} (customs : Customs.t num) (productId : string) : Prop :=
  ∃ itemData,
    Customs.items customs !! productId = Some itemData
    ∧ Customs.tariffNumber itemData ≠ None
    ∧ Customs.ignoreWeightValidation customs !! productId ≠ Some true
    ∧ Customs.ignoreValueValidation customs !! productId ≠ Some true.

(** The same notion as C2 words it: the tariff number is present, or the
    product is marked as ignoring weight or value validation. *)
Definition reviewedAsClaimed {num : Type} (customs : Customs.t num)
    (productId : string) : Prop :=
  ∃ itemData,
    Customs.items customs !! productId = Some itemData
    ∧ (Customs.tariffNumber itemData ≠ None
       ∨ Customs.ignoreWeightValidation customs !! productId = Some true
       ∨ Customs.ignoreValueValidation customs !! productId = Some true).

(** ** Example data *)

Module Samples.
Import Decimal.

(** An address the server could not normalize: it reports an error on the
    street, a field whose validation the form ignores. *)
Definition unverified : Address := {|
  values := {[ "address" := "1 Nowhere St" ]};
  isNormalized := true;
  isUnverifiable := false;
  normalized := None;
  ignoreValidation := Some {[ "address" := true ]};
  fieldErrors := Some {[ "address" := "Street not found" ]};
|}.

(** An address under edition in a country with states, without a state. *)
Definition stateless : Address := {|
  values := {[ "country" := "US"; "city" := "Austin" ]};
  isNormalized := false;
  isUnverifiable := false;
  normalized := None;
  ignoreValidation := Some {[ "state" := true ]};
  fieldErrors := None;
|}.

(** An address with the phone number [phone], or without one. *)
Definition with_phone (phone : option string) : Address := {|
  values :=
    let base : gmap string string := {[ "country" := "US" ]} in
    match phone with
    | Some p => <["phone" := p]> base
    | None => base
    end;
  isNormalized := false;
  isUnverifiable := false;
  normalized := None;
  ignoreValidation := None;
  fieldErrors := None;
|}.

Definition both_phones : FieldsToValidate :=
  {| originPhone := true; destinationPhone := true |}.
Definition origin_phone_only : FieldsToValidate :=
  {| originPhone := true; destinationPhone := false |}.
Definition destination_phone_only : FieldsToValidate :=
  {| originPhone := false; destinationPhone := true |}.

End Samples.

(** ** Example forms *)

Module Forms.
Import Decimal.

(** A normalized address whose values are the normalized ones. *)
Definition verified (vals : gmap string string) : Address := {|
  values := vals;
  isNormalized := true;
  isUnverifiable := false;
  normalized := Some vals;
  ignoreValidation := None;
  fieldErrors := None;
|}.

Definition austin : gmap string string :=
  list_to_map [("name", "Ada"); ("address", "1 Main St"); ("city", "Austin");
               ("state", "TX"); ("postcode", "78701"); ("country", "US");
               ("phone", "512-555-0100")].

Definition toronto : gmap string string :=
  list_to_map [("name", "Bob"); ("address", "2 King St"); ("city", "Toronto");
               ("state", "ON"); ("postcode", "M5V 2T6"); ("country", "CA");
               ("phone", "416-555-0100")].

Definition guam : gmap string string :=
  list_to_map [("name", "Di"); ("address", "4 Marine Dr"); ("city", "Hagatna");
               ("postcode", "96910"); ("country", "GU")].

(** An address without a city. *)
Definition nowhere : gmap string string :=
  list_to_map [("name", "Ed"); ("address", "5 Lost Rd"); ("state", "TX");
               ("postcode", "78701"); ("country", "US")].

(** A box of the catalog with the given items. *)
Definition box (box_id : string) (items : list (Package.item t)) : Package.t t := {|
  Package.box_id := Some box_id;
  Package.items := items;
  Package.weight := JNum (of_Z 2);
  Package.length := JNum (of_Z 10);
  Package.width := JNum (of_Z 8);
  Package.height := JNum (of_Z 4);
  Package.contentsType := Some "merchandise";
  Package.contentsExplanation := None;
  Package.restrictionType := Some "none";
  Package.restrictionComments := None;
  Package.itn := None;
|}.

Definition one (product_id : string) : Package.item t :=
  {| Package.product_id := product_id; Package.quantity := of_Z 1 |}.

Definition product (value : Z) (tariffNumber : option string) : Customs.item t := {|
  Customs.description := Some "Ceramic mug";
  Customs.weight := JStr "0.5";
  Customs.value := JNum (of_Z value);
  Customs.tariffNumber := tariffNumber;
|}.

Definition no_rates : Rates.t t := {| Rates.values := []; Rates.available := [] |}.

Definition priority : Rates.quote t := {|
  Rates.service_id := Some "usps_priority";
  Rates.title := "USPS - Priority Mail";
  Rates.carrier_id := Some "usps";
  Rates.rate := dec 595 2;
  Rates.retail_rate := dec 700 2;
|}.

(** One package with the service "usps_priority" selected and quoted, no
    signature requirement. *)
Definition priority_rates : Rates.t t := {|
  Rates.values :=
    [("box", {| Rates.serviceId := Some "usps_priority";
                Rates.signatureRequired := None |})];
  Rates.available :=
    [("box", {| Rates.default := {| Rates.rates := [priority]; Rates.errors := [] |};
                Rates.signature := ∅ |})];
|}.

Definition no_customs : Customs.t t := {|
  Customs.items := ∅;
  Customs.ignoreWeightValidation := ∅;
  Customs.ignoreValueValidation := ∅;
|}.

(** Two packages whose items share the tariff number 123456, with declared
    values 1500 and 1200. *)
Definition two_packages : Obj.t (Package.t t) :=
  [("first", box "medium" [one "11"]); ("second", box "small" [one "12"])].

Definition shared_tariff : Customs.t t := {|
  Customs.items :=
    {[ "11" := product 1500 (Some "123456"); "12" := product 1200 (Some "123456") ]};
  Customs.ignoreWeightValidation := ∅;
  Customs.ignoreValueValidation := ∅;
|}.

(** The same declaration without the second product. *)
Definition incomplete : Customs.t t := {|
  Customs.items := {[ "11" := product 1500 (Some "123456") ]};
  Customs.ignoreWeightValidation := ∅;
  Customs.ignoreValueValidation := ∅;
|}.

(** The state with one loaded label, of order 123 on site 1. *)
Definition state_of (origin destination : Address)
    (packages : Obj.t (Package.t t)) (customs : Customs.t t) (rates : Rates.t t)
    : State t :=
  {[ (1%Z, 123%Z) :=
       {| ShippingLabel.loaded := true;
          ShippingLabel.form :=
            Some {| Form.origin := origin;
                    Form.destination := destination;
                    Form.packages := {| Form.selected := packages |};
                    Form.customs := customs;
                    Form.rates := rates |};
          ShippingLabel.paperSize := Some "letter" |} ]}.

(** A declaration whose only product has a tariff number and is marked as
    ignoring weight validation, or is not marked. *)
Definition declaration (ignoreWeight : bool) : Customs.t t := {|
  Customs.items := {[ "7" := product 12 (Some "691110") ]};
  Customs.ignoreWeightValidation :=
    if ignoreWeight then {[ "7" := true ]} else ∅;
  Customs.ignoreValueValidation := ∅;
|}.

(** A shipment from the United States to Canada, valid in every step before
    customs, with no customs error. *)
Definition export_state (ignoreWeight : bool) : State t :=
  state_of (verified austin) (verified toronto) [("box", box "medium" [one "7"])]
           (declaration ignoreWeight) no_rates.

(** A domestic shipment with no city in the origin and no box selected. *)
Definition broken_state : State t :=
  state_of (verified nowhere) (verified austin) [("box", box "not_selected" [])]
           no_customs no_rates.

(** A domestic shipment with a priority rate selected. *)
Definition priority_state : State t :=
  state_of (verified austin) (verified austin) [("box", box "medium" [])]
           no_customs priority_rates.

(** A shipment from Guam to Guam. *)
Definition guam_state : State t :=
  state_of (verified guam) (verified guam) [("box", box "medium" [])]
           no_customs no_rates.

End Forms.

(** ** Further selectors *)

(** The address group of [isAddressUsable]: its callers pass ['origin'] or
    ['destination']. *)
Module Group.
Inductive t : Type := origin | destination.
End Group.

(** The flags of a form that tell a request is under way, which the records
    above leave out: [form.origin.normalizationInProgress],
    [form.destination.normalizationInProgress] and
    [form.rates.retrievalInProgress]. *)
Module Progress.
Record t := {
  originNormalization : bool;
  destinationNormalization : bool;
  ratesRetrieval : bool;
}.
End Progress.

Section MoreSelectors.
Context {num : Type} `{NumberOps num} `{Collaborators}.

(** [hasSelectedRates]: [every( selections )] holds of the selections that
    are present. *)
Definition hasSelectedRates (rates : Rates.t num) : bool :=
  let selections :=
    map (λ kv, Obj.get (Rates.values rates) kv.1) (Rates.available rates) in
  negb (List.length selections =? 0)%nat && forallb present selections.

(** [form[ group ]] *)
Definition formAddress (form : Form.t num) (group : Group.t) : Address :=
  match group with
  | Group.origin => Form.origin form
  | Group.destination => Form.destination form
  end.

(** [isAddressUsable]: the label and its form are dereferenced without a
    guard. *)
Definition isAddressUsable (appState : State num) (orderId : Z) (group : Group.t)
    (siteId : Z) : result bool :=
  match getShippingLabel appState orderId siteId with
  | None => TypeError
  | Some shippingLabel =>
      let validatePhone :=
        match group with
        | Group.origin => isCustomsFormRequired appState orderId siteId
        | Group.destination => false
        end in
      let fieldsToValidate :=
        {| originPhone := validatePhone; destinationPhone := false |} in
      match ShippingLabel.form shippingLabel with
      | None => TypeError
      | Some form =>
          let errors := getRawAddressErrors (formAddress form group) fieldsToValidate in
          Ok (0 =? size errors)%nat
      end
  end.

(** [canPurchase], the in-progress flags of the form being given apart. *)
Definition canPurchase (state : State num) (progress : Progress.t)
    (orderId siteId : Z) : result bool :=
  match getForm state orderId siteId with
  | None => Ok false
  | Some form =>
      bind (getFirstErroneousStep state orderId siteId) (λ step,
        Ok (negb (present step)
            && negb (Progress.originNormalization progress)
            && negb (Progress.destinationNormalization progress)
            && negb (Progress.ratesRetrieval progress)
            && negb (List.length (Rates.available (Form.rates form)) =? 0)%nat))
  end.

End MoreSelectors.

(** ** Country and state names *)

(** lodash [omit( o, keys )] *)
Definition omit {A : Type} (o : Obj.t A) (keys : list string) : Obj.t A :=
  List.filter (λ kv, negb (existsb (String.eqb kv.1) keys)) o.

Section Names.
Context `{Collaborators}.

(** The table [DOMESTIC_US_TERRITORIES] of [./constants], the states the
    location selector [getStates] lists for a country, each with its code and
    name, and the plugin selector [isWcsInternationalLabelsEnabled]. *)
Variable DOMESTIC_US_TERRITORIES : list string.
Variable getStates : string → list (string * string).
Variable isWcsInternationalLabelsEnabled : bool.

(** [getOriginCountryNames], on the object [getAllCountryNames] returns. *)
Definition getOriginCountryNames (allNames : Obj.t string) : Obj.t string :=
  if isWcsInternationalLabelsEnabled
  then Obj.pick (list_to_map allNames) ACCEPTED_USPS_ORIGIN_COUNTRIES
  else Obj.pick (list_to_map allNames) DOMESTIC_US_TERRITORIES.

Definition getDestinationCountryNames (allNames : Obj.t string) : Obj.t string :=
  if isWcsInternationalLabelsEnabled
  then allNames
  else Obj.pick (list_to_map allNames) DOMESTIC_US_TERRITORIES.

(** [states.forEach( ( { code, name } ) => ( names[ code ] = name ) )] *)
Definition namesByCode (states : list (string * string)) : Obj.t string :=
  foldl (λ names state, Obj.set state.1 state.2 names) [] states.

Definition getStateNames (countryCode : string) : option (Obj.t string) :=
  if negb (hasStates (Some countryCode)) then None
  else
    let names := namesByCode (getStates countryCode) in
    if String.eqb "US" countryCode && negb isWcsInternationalLabelsEnabled
    then Some (omit names US_MILITARY_STATES)
    else Some names.

End Names.

(** * Properties *)

(** ** Helper lemmas on the JavaScript primitives *)

Lemma eq_lit_true (lit : string) (o : option string) :
  eq_lit lit o = true ↔ o = Some lit.
Proof.
  destruct o as [s|]; simpl; [|split; discriminate].
  rewrite String.eqb_eq. split; [intros ->; reflexivity | intros [= ->]; reflexivity].
Qed.

Lemma includes_true (l : list string) (o : option string) :
  includes l o = true ↔ ∃ s, o = Some s ∧ s ∈ l.
Proof.
  destruct o as [s|]; simpl.
  - rewrite existsb_exists. split.
    + intros (x & Hin & Heq). apply String.eqb_eq in Heq as ->.
      exists x. split; [reflexivity | by apply list_elem_of_In].
    + intros (x & [= ->] & Hin). exists x.
      split; [by apply list_elem_of_In | apply String.eqb_refl].
  - split; [discriminate | intros (? & ? & _); discriminate].
Qed.

(** ** Address validation *)

Section AddressProperties.
Context `{Collaborators}.

Lemma required_lookup (vals : gmap string string) (k : string) :
  k ∉ requiredFields →
  foldl (λ (errors : gmap string string) field,
           if truthy (vals !! field) then errors
           else <[field := Msg.required]> errors) ∅ requiredFields !! k = None.
Proof.
  intros Hk. unfold requiredFields in *.
  rewrite !not_elem_of_cons in Hk. destruct Hk as (? & ? & ? & ? & _).
  simpl. repeat case_match; rewrite ?lookup_insert_ne by done; apply lookup_empty.
Qed.

Ltac not_required :=
  unfold requiredFields; rewrite !not_elem_of_cons;
  repeat split; try discriminate; apply not_elem_of_nil.

(** The [state] entry of the raw errors is decided by the fourth rule alone. *)
Lemma raw_state (a : Address) (ftv : FieldsToValidate) :
  getRawAddressErrors a ftv !! "state" =
  if negb (truthy (getAddressValues a !! "state"))
     && hasStates (getAddressValues a !! "country")
  then Some Msg.required else None.
Proof.
  unfold getRawAddressErrors.
  repeat match goal with
         | |- context [if ?b then _ else _] => destruct b
         end;
    repeat (rewrite lookup_insert_eq || rewrite lookup_insert_ne by discriminate);
    try reflexivity; apply required_lookup; not_required.
Qed.

(** The [phone] entry of the raw errors is decided by the phone rules alone,
    the destination rule being applied last. *)
Lemma raw_phone (a : Address) (ftv : FieldsToValidate) :
  let phone := getAddressValues a !! "phone" in
  getRawAddressErrors a ftv !! "phone" =
  if destinationPhone ftv && negb (truthy phone)
  then Some Msg.destination_phone_required
  else if originPhone ftv then
    if negb (truthy phone) then Some Msg.origin_phone_required
    else if negb (phone_digits (default "" phone) =? 10)%nat
    then Some Msg.phone_format
    else None
  else None.
Proof.
  intros phone. unfold getRawAddressErrors. fold phone.
  destruct (destinationPhone ftv), (originPhone ftv), (truthy phone); simpl;
    try destruct (negb _);
    repeat match goal with
           | |- context [if ?b then _ else _] => destruct b
           end;
    repeat (rewrite lookup_insert_eq || rewrite lookup_insert_ne by discriminate);
    try reflexivity; apply required_lookup; not_required.
Qed.

(** C1, as amended: for every address record where (isNormalized or
    isUnverifiable) is true, no normalized value is present and a fieldErrors
    map is present, [getAddressErrors] returns that fieldErrors map verbatim,
    whatever [ignoreValidation] holds: the suppression of ignored fields is
    applied on the full rule-set path only. *)
Theorem getAddressErrors_bypass_verbatim (a : Address) (ftv : FieldsToValidate)
    (fe : gmap string string) :
  isNormalized a || isUnverifiable a = true →
  normalized a = None →
  fieldErrors a = Some fe →
  getAddressErrors a ftv = fe.
Proof.
  intros Hflag Hnorm Hfe. unfold getAddressErrors.
  rewrite Hflag, Hnorm, Hfe. reflexivity.
Qed.

(** C9: for every address with isNormalized = false and isUnverifiable =
    false whose country is known to have states and whose state value is
    empty, the state-required rule fires in the raw errors, and when
    [ignoreValidation.state] is truthy the result of [getAddressErrors] has no
    [state] entry. *)
Theorem getAddressErrors_ignored_state (a : Address) (ftv : FieldsToValidate)
    (ign : gmap string bool) :
  isNormalized a = false →
  isUnverifiable a = false →
  hasStates (getAddressValues a !! "country") = true →
  truthy (getAddressValues a !! "state") = false →
  ignoreValidation a = Some ign →
  ign !! "state" = Some true →
  getRawAddressErrors a ftv !! "state" = Some Msg.required
  ∧ getAddressErrors a ftv !! "state" = None.
Proof.
  intros Hn Hu Hstates Hempty Hign Hstate. split.
  - rewrite raw_state, Hempty, Hstates. reflexivity.
  - unfold getAddressErrors. rewrite Hn, Hu, Hign. simpl.
    unfold suppress_ignored. apply map_lookup_filter_None.
    right. intros msg _ Hkeep. simpl in Hkeep. contradiction.
Qed.

(** C4, as amended.  With [fieldsToValidate.originPhone === true]: an empty
    phone yields the origin-phone-required error provided that
    [destinationPhone] is not [true] as well; a phone that is not empty has
    the format error if and only if stripping all non-digit characters and
    then a single leading "1" does not leave exactly 10 digits, and no phone
    error otherwise.  With [fieldsToValidate.destinationPhone === true]: an
    empty phone yields the destination-phone-required error, and when
    [originPhone] is not [true] a phone that is not empty has no error (the
    10-digit check does not run). *)
Theorem getRawAddressErrors_phone (a : Address) (ftv : FieldsToValidate) :
  let phone := getAddressValues a !! "phone" in
  let error := getRawAddressErrors a ftv !! "phone" in
  (originPhone ftv = true → destinationPhone ftv = false → truthy phone = false →
   error = Some Msg.origin_phone_required)
  ∧ (originPhone ftv = true → truthy phone = true →
     (error = Some Msg.phone_format ↔ phone_digits (default "" phone) ≠ 10)
     ∧ (error = None ↔ phone_digits (default "" phone) = 10))
  ∧ (destinationPhone ftv = true → truthy phone = false →
     error = Some Msg.destination_phone_required)
  ∧ (destinationPhone ftv = true → originPhone ftv = false → truthy phone = true →
     error = None).
Proof.
  intros phone error. subst error. rewrite raw_phone. fold phone.
  split; [|split; [|split]].
  - intros -> -> ->. reflexivity.
  - intros -> ->. rewrite andb_false_r. cbn [negb].
    destruct (Nat.eqb_spec (phone_digits (default "" phone)) 10) as [Hten|Hten];
      cbn [negb]; split; split; intros Hgoal;
      try discriminate; try contradiction; try reflexivity; try assumption.
  - intros -> ->. reflexivity.
  - intros -> -> ->. reflexivity.
Qed.

End AddressProperties.

(** C1, as stated, fails: the server's error on an ignored field is returned
    by the bypass and is not suppressed. *)
Lemma getAddressErrors_bypass_keeps_ignored :
  let a := Samples.unverified in
  let ftv := Samples.origin_phone_only in
  isNormalized a || isUnverifiable a = true
  ∧ normalized a = None
  ∧ fieldErrors a = Some {[ "address" := "Street not found" ]}
  ∧ ignoreValidation a = Some {[ "address" := true ]}
  ∧ getAddressErrors a ftv !! "address" = Some "Street not found"
  ∧ getAddressErrors a ftv
    ≠ suppress_ignored {[ "address" := true ]} {[ "address" := "Street not found" ]}.
Proof.
  repeat split.
  intros Heq. apply (f_equal (λ m : gmap string string, m !! "address")) in Heq.
  vm_compute in Heq. discriminate.
Qed.

Lemma getAddressErrors_bypass_verbatim_witness :
  getAddressErrors Samples.unverified Samples.origin_phone_only
  = {[ "address" := "Street not found" ]}.
Proof.
  apply (getAddressErrors_bypass_verbatim Samples.unverified
           Samples.origin_phone_only {[ "address" := "Street not found" ]});
    reflexivity.
Defined.

Lemma getAddressErrors_ignored_state_witness :
  getRawAddressErrors Samples.stateless Samples.origin_phone_only !! "state"
  = Some Msg.required
  ∧ getAddressErrors Samples.stateless Samples.origin_phone_only !! "state" = None.
Proof.
  apply (getAddressErrors_ignored_state Samples.stateless Samples.origin_phone_only
           {[ "state" := true ]}); reflexivity.
Defined.

Lemma getAddressErrors_both_phones :
  let a := Samples.with_phone None in
  originPhone Samples.both_phones = true
  ∧ truthy (getAddressValues a !! "phone") = false
  ∧ getRawAddressErrors a Samples.both_phones !! "phone"
    = Some Msg.destination_phone_required
  ∧ getRawAddressErrors a Samples.both_phones !! "phone"
    ≠ Some Msg.origin_phone_required.
Proof.
  repeat split. vm_compute. discriminate.
Qed.

Lemma getRawAddressErrors_phone_witness :
  getRawAddressErrors (Samples.with_phone None) Samples.origin_phone_only !! "phone"
  = Some Msg.origin_phone_required
  ∧ getRawAddressErrors (Samples.with_phone (Some "555-0100")) Samples.origin_phone_only
    !! "phone" = Some Msg.phone_format
  ∧ getRawAddressErrors (Samples.with_phone (Some "+1 (512) 555-0100"))
      Samples.origin_phone_only !! "phone" = None
  ∧ getRawAddressErrors (Samples.with_phone None) Samples.destination_phone_only
    !! "phone" = Some Msg.destination_phone_required
  ∧ getRawAddressErrors (Samples.with_phone (Some "555-0100"))
      Samples.destination_phone_only !! "phone" = None.
Proof.
  split; [|split; [|split; [|split]]].
  - destruct (getRawAddressErrors_phone (Samples.with_phone None)
                Samples.origin_phone_only) as (Horigin & _).
    apply Horigin; reflexivity.
  - destruct (getRawAddressErrors_phone (Samples.with_phone (Some "555-0100"))
                Samples.origin_phone_only) as (_ & Hformat & _).
    apply Hformat; [reflexivity | reflexivity |]. vm_compute. discriminate.
  - destruct (getRawAddressErrors_phone (Samples.with_phone (Some "+1 (512) 555-0100"))
                Samples.origin_phone_only) as (_ & Hformat & _).
    apply Hformat; reflexivity.
  - destruct (getRawAddressErrors_phone (Samples.with_phone None)
                Samples.destination_phone_only) as (_ & _ & Hdestination & _).
    apply Hdestination; reflexivity.
  - destruct (getRawAddressErrors_phone (Samples.with_phone (Some "555-0100"))
                Samples.destination_phone_only) as (_ & _ & _ & Hskipped).
    apply Hskipped; reflexivity.
Defined.

(** ** Objects *)

Lemma get_mapValues {A B : Type} (f : A → string → B) (o : Obj.t A) (k : string) :
  Obj.get (Obj.mapValues f o) k = (λ a, f a k) <$> Obj.get o k.
Proof.
  induction o as [|[k' a] o IH]; simpl; [reflexivity|].
  destruct (String.eqb_spec k' k) as [->|]; [reflexivity | apply IH].
Qed.

(** ** Rates *)

Lemma renderable_text (err : Rates.providerError) :
  renderable err =
  let text :=
    match Rates.userMessage err with
    | Some text => if decide (text = "") then default "" (Rates.message err) else text
    | None => default "" (Rates.message err)
    end in
  if decide (text ≠ "") then Some text else None.
Proof.
  destruct err as [[u|] [r|]]; unfold renderable; simpl;
    repeat match goal with
           | |- context [String.eqb ?a ?b] => destruct (String.eqb_spec a b); subst; simpl
           end;
    repeat case_decide; subst; simpl; congruence.
Qed.

Lemma omap_renderable (errors : list Rates.providerError) :
  omap renderable errors = providerMessages errors.
Proof.
  unfold providerMessages.
  induction errors as [|err errors IH]; [reflexivity|].
  rewrite fmap_cons, filter_cons. cbn [omap list_omap].
  rewrite renderable_text, IH. cbv zeta.
  case_decide; reflexivity.
Qed.

Section RatesProperties.
Context {num : Type} `{NumberOps num}.

(** C7: for every rate selection, [getRatesErrors] maps each quoted package
    to: the list of its provider errors' user-facing (or raw) messages with
    blanks removed when the default quote carries errors, falling back to the
    single generic "couldn't get a rate" message when all messages are blank;
    otherwise the empty list when a service is already selected for that
    package; otherwise the "no rates available" message when the default rate
    list is empty; otherwise the generic "please choose a rate" message. *)
Theorem getRatesErrors_cases (rates : Rates.t num) (boxId : string)
    (quotes : Rates.quotes num) :
  Obj.get (Rates.available rates) boxId = Some quotes →
  let errors := Rates.errors (Rates.default quotes) in
  let selected := truthy (Obj.get (Rates.values rates) boxId ≫= Rates.serviceId) in
  ∃ result,
    Obj.get (getRatesErrors rates) boxId = Some result
    ∧ (errors ≠ [] → providerMessages errors ≠ [] → result = providerMessages errors)
    ∧ (errors ≠ [] → providerMessages errors = [] → result = [RatesMsg.no_rate])
    ∧ (errors = [] → selected = true → result = [])
    ∧ (errors = [] → selected = false → Rates.rates (Rates.default quotes) = [] →
       result = [RatesMsg.none_available])
    ∧ (errors = [] → selected = false → Rates.rates (Rates.default quotes) ≠ [] →
       result = [RatesMsg.choose]).
Proof.
  intros Hget errors selected.
  exists (packageRatesErrors (Rates.values rates) quotes boxId).
  split.
  { unfold getRatesErrors. rewrite get_mapValues, Hget. reflexivity. }
  unfold packageRatesErrors. fold errors. fold selected.
  rewrite omap_renderable.
  destruct errors as [|e errors'] eqn:Herrors.
  - repeat split; try (intros Hne; contradiction).
    + intros _ ->. reflexivity.
    + intros _ -> ->. reflexivity.
    + intros _ -> Hrates.
      destruct (Rates.rates (Rates.default quotes)); [contradiction | reflexivity].
  - repeat split; try (intros [=]).
    + intros _ Hmsgs. destruct (providerMessages (e :: errors')); [contradiction | reflexivity].
    + intros _ ->. reflexivity.
Qed.

End RatesProperties.

(** ** Price breakdown *)

Section PriceProperties.
Context {num : Type} `{NumberOps num}.

(** The loop of [getTotalPriceBreakdown], from any values of its variables. *)
Lemma foldl_priceStep (availableRates : Obj.t (Rates.quotes num))
    (selectedRates : Obj.t Rates.selection)
    (prices : list (Price.line num)) (discount total : num) :
  foldl (priceStep availableRates) (prices, discount, total) selectedRates =
  let lines := omap (λ entry, foundRates availableRates entry.1 entry.2) selectedRates in
  ((prices ++ map (λ p, priceLine p.1 p.2) lines)%list,
   foldl (λ acc p, num_add acc
                     (num_round2 (num_sub (Rates.retail_rate p.1) (Rates.rate p.1))))
         discount lines,
   foldl (λ acc p, num_add acc (rateTotal p.1 p.2)) total lines).
Proof.
  revert prices discount total.
  induction selectedRates as [|entry selectedRates IH]; intros prices discount total.
  - simpl. rewrite app_nil_r. reflexivity.
  - cbn [foldl omap list_omap]. unfold priceStep at 2.
    destruct (foundRates availableRates entry.1 entry.2) as [[foundRate signed]|].
    + rewrite IH. cbn [map foldl fst snd]. rewrite <- app_assoc. reflexivity.
    + apply IH.
Qed.

Lemma totalPriceBreakdown_accumulates (rates : Rates.t num) :
  totalPriceBreakdown rates =
  match pricedPackages rates with
  | [] => None
  | lines =>
      Some {| Price.prices := map (λ p, priceLine p.1 p.2) lines;
              Price.discount :=
                accumulate (λ p, num_round2 (num_sub (Rates.retail_rate p.1)
                                                      (Rates.rate p.1))) lines;
              Price.total :=
                accumulate (λ p, match p.2 with
                                 | Some signed => Rates.rate signed
                                 | None => Rates.rate p.1
                                 end) lines |}
  end.
Proof.
  unfold totalPriceBreakdown, pricedPackages, accumulate.
  rewrite foldl_priceStep. cbv zeta.
  match goal with |- context [map _ ?l] => destruct l as [|line lines] end;
    reflexivity.
Qed.

End PriceProperties.



(** ** Loops that can throw *)

Lemma foldM_app {A B : Type} (f : B → A → result B) (l1 l2 : list A) (b : B) :
  foldM f (l1 ++ l2) b = bind (foldM f l1 b) (foldM f l2).
Proof.
  revert b. induction l1 as [|x l1 IH]; intros b; simpl; [reflexivity|].
  destruct (f b x); simpl; [apply IH | reflexivity].
Qed.

Lemma foldM_concat {A B C : Type} (f : B → A → result B) (g : C → list A)
    (l : list C) (b : B) :
  foldM (λ b c, foldM f (g c) b) l b = foldM f (concat (map g l)) b.
Proof.
  revert b. induction l as [|c l IH]; intros b; simpl; [reflexivity|].
  rewrite foldM_app. destruct (foldM f (g c) b); simpl; [apply IH | reflexivity].
Qed.

(** A loop whose body throws exactly on the elements outside [Q] completes
    exactly when all its elements are in [Q]. *)
Lemma foldM_total {A B : Type} (f : B → A → result B) (Q : A → Prop)
    `{∀ x, Decision (Q x)} (l : list A) (b : B) :
  (∀ b x, Q x → ∃ b', f b x = Ok b') →
  (∀ b x, ¬ Q x → f b x = TypeError) →
  (Forall Q l → ∃ b', foldM f l b = Ok b')
  ∧ (¬ Forall Q l → foldM f l b = TypeError).
Proof.
  intros Hok Hfail. revert b.
  induction l as [|x l IH]; intros b; simpl.
  - split; [eauto | intros Hn; destruct Hn; constructor].
  - split.
    + intros HQ. apply Forall_cons in HQ as [Hx Hl].
      destruct (Hok b x Hx) as [b' ->]. simpl. by apply IH.
    + intros Hn.
      destruct (f b x) as [b'|] eqn:Hfx; simpl; [|reflexivity].
      apply IH. intros Hl. apply Hn. constructor; [|assumption].
      destruct (decide (Q x)) as [Hx|Hx]; [assumption|].
      rewrite (Hfail b x Hx) in Hfx. discriminate.
Qed.

Lemma mapM_total {A B : Type} (f : A → result B) (Q : A → Prop)
    `{∀ x, Decision (Q x)} (l : list A) :
  (∀ x, Q x → ∃ y, f x = Ok y) →
  (∀ x, ¬ Q x → f x = TypeError) →
  (Forall Q l → ∃ l', mapM f l = Ok l')
  ∧ (¬ Forall Q l → mapM f l = TypeError).
Proof.
  intros Hok Hfail.
  induction l as [|x l IH]; simpl.
  - split; [eauto | intros Hn; destruct Hn; constructor].
  - split.
    + intros HQ. apply Forall_cons in HQ as [Hx Hl].
      destruct (Hok x Hx) as [y ->]. simpl.
      destruct (proj1 IH Hl) as [l' ->]. simpl. eauto.
    + intros Hn.
      destruct (f x) as [y|] eqn:Hfx; simpl; [|reflexivity].
      rewrite (proj2 IH); [reflexivity|].
      intros Hl. apply Hn. constructor; [|assumption].
      destruct (decide (Q x)) as [Hx|Hx]; [assumption|].
      rewrite (Hfail x Hx) in Hfx. discriminate.
Qed.

Lemma get_mapValuesM {A B : Type} (f : A → string → result B) (o : Obj.t A)
    (o' : Obj.t B) (k : string) (a : A) :
  Obj.mapValuesM f o = Ok o' →
  Obj.get o k = Some a →
  ∃ b, f a k = Ok b ∧ Obj.get o' k = Some b.
Proof.
  unfold Obj.mapValuesM. revert o'.
  induction o as [|[k' a'] o IH]; intros o' Hmap Hget; simpl in *; [discriminate|].
  destruct (f a' k') as [b'|] eqn:Hf; simpl in Hmap; [|discriminate].
  destruct (mapM _ o) as [rest|] eqn:Hrest; simpl in Hmap; [|discriminate].
  injection Hmap as <-. simpl.
  destruct (String.eqb_spec k' k) as [->|Hne].
  - injection Hget as ->. eauto.
  - apply IH; [reflexivity | assumption].
Qed.

(** ** Sets and [uniq] *)

Lemma elem_of_set_add {A : Type} `{EqDecision A} (x y : A) (s : list A) :
  x ∈ set_add y s ↔ x = y ∨ x ∈ s.
Proof.
  unfold set_add. case_decide as Hin.
  - split; [auto | intros [->|]; assumption].
  - rewrite elem_of_app, list_elem_of_singleton. tauto.
Qed.

Lemma elem_of_uniq (x : string) (l : list string) : x ∈ uniq l ↔ x ∈ l.
Proof.
  induction l as [|y l IH]; simpl; [reflexivity|].
  rewrite !elem_of_cons, list_elem_of_filter, IH.
  destruct (decide (x = y)); tauto.
Qed.

Lemma NoDup_uniq (l : list string) : NoDup (uniq l).
Proof.
  induction l as [|y l IH]; simpl; constructor.
  - rewrite list_elem_of_filter. tauto.
  - by apply NoDup_filter.
Qed.

(** ** Enumeration order and [pick] *)

Lemma create_perm {A : Type} (k : string) (v : A) (o : Obj.t A) :
  Obj.create k v o ≡ₚ (k, v) :: o.
Proof.
  induction o as [|[k' v'] o IH]; simpl; [reflexivity|].
  destruct (Obj.enumerated_before k k'); [reflexivity|].
  rewrite IH. apply Permutation_swap.
Qed.

Lemma get_Some_elem_of {A : Type} (o : Obj.t A) (k : string) (v : A) :
  Obj.get o k = Some v → (k, v) ∈ o.
Proof.
  induction o as [|[k' v'] o IH]; simpl; [discriminate|].
  destruct (String.eqb_spec k' k) as [->|Hne].
  - intros [= ->]. apply list_elem_of_here.
  - intros Hget. apply list_elem_of_further, IH, Hget.
Qed.

Lemma get_None_not_key {A : Type} (o : Obj.t A) (k : string) :
  Obj.get o k = None → k ∉ o.*1.
Proof.
  induction o as [|[k' v'] o IH]; simpl; [intros _; apply not_elem_of_nil|].
  destruct (String.eqb_spec k' k) as [->|Hne]; [discriminate|].
  intros Hget. apply not_elem_of_cons. split; [congruence | apply IH, Hget].
Qed.

Lemma overwrite_same {A : Type} (k : string) (v : A) (o : Obj.t A) :
  (∀ v', (k, v') ∈ o → v' = v) → Obj.overwrite k v o = o.
Proof.
  induction o as [|[k' v'] o IH]; intros Hsame; simpl; [reflexivity|].
  destruct (String.eqb_spec k' k) as [->|Hne].
  - rewrite (Hsame v'); [reflexivity | apply list_elem_of_here].
  - rewrite IH; [reflexivity|].
    intros v'' Hin. apply Hsame. by apply list_elem_of_further.
Qed.

Section Pick.
Context {A : Type} (source : gmap string A).

Lemma pick_step (seen : list string) (o : Obj.t A) (k : string) :
  picked_so_far source seen o →
  picked_so_far source (seen ++ [k])
    (match source !! k with Some v => Obj.set k v o | None => o end).
Proof.
  intros [Hin Hnodup].
  destruct (source !! k) as [v|] eqn:Hk.
  - unfold Obj.set. destruct (Obj.get o k) as [v0|] eqn:Hget.
    + apply get_Some_elem_of, Hin in Hget as Hseen.
      destruct Hseen as [Hseen Hv0].
      rewrite overwrite_same.
      * split; [|assumption]. intros k' v'. rewrite Hin, elem_of_app, list_elem_of_singleton.
        split; [tauto|]. intros [[?| ->] ?]; tauto.
      * intros v' Hv'. apply Hin in Hv' as [_ Hv']. congruence.
    + split.
      * intros k' v'. rewrite create_perm, elem_of_cons, Hin, elem_of_app,
          list_elem_of_singleton.
        split.
        -- intros [[= -> ->]|[? ?]]; tauto.
        -- intros [[?| ->] Hv']; [tauto|]. left. congruence.
      * rewrite create_perm. simpl. constructor; [|assumption].
        apply get_None_not_key, Hget.
  - split; [|assumption]. intros k' v'. rewrite Hin, elem_of_app, list_elem_of_singleton.
    split; [tauto|]. intros [[?| ->] ?]; [tauto | congruence].
Qed.

Lemma pick_loop (keys seen : list string) (o : Obj.t A) :
  picked_so_far source seen o →
  picked_so_far source (seen ++ keys)
    (foldl (λ o k, match source !! k with
                   | Some v => Obj.set k v o
                   | None => o
                   end) o keys).
Proof.
  revert seen o. induction keys as [|k keys IH]; intros seen o Hinv; simpl.
  - by rewrite app_nil_r.
  - replace (seen ++ k :: keys)%list with ((seen ++ [k]) ++ keys)%list
      by (rewrite <- app_assoc; reflexivity).
    apply IH, pick_step, Hinv.
Qed.

(** [pick] holds the entries of the source at the given keys, once each. *)
Lemma pick_spec (keys : list string) :
  (∀ k v, (k, v) ∈ Obj.pick source keys ↔ k ∈ keys ∧ source !! k = Some v)
  ∧ NoDup (Obj.pick source keys).*1.
Proof.
  apply (pick_loop keys [] []). split; [|constructor].
  intros k v. split; [intros Hin | intros [Hin _]]; by apply elem_of_nil in Hin.
Qed.

End Pick.

(** ** Customs validation: when it completes *)

Section CustomsTotality.
Context {num : Type} `{NumberOps num} `{Collaborators}.

Lemma allEntries_Forall (packages : Obj.t (Package.t num)) (customs : Customs.t num) :
  allEntries packages customs
  ↔ Forall (λ pckg, Forall (hasEntry customs) (Package.items pckg)) (Obj.vals packages).
Proof.
  unfold allEntries, hasEntry. rewrite Forall_forall. setoid_rewrite Forall_forall.
  split; intros Hall; [intros pckg Hp it Hit | intros pckg it Hp Hit]; eauto.
Qed.

Lemma allEntries_allItems (packages : Obj.t (Package.t num)) (customs : Customs.t num) :
  allEntries packages customs ↔ Forall (hasEntry customs) (allItems packages).
Proof.
  rewrite allEntries_Forall. unfold allItems.
  induction (Obj.vals packages) as [|pckg l IH]; simpl.
  - split; constructor.
  - rewrite Forall_cons, Forall_app, IH. reflexivity.
Qed.

Lemma addItemValue_ok (customs : Customs.t num) (m : gmap string num)
    (it : Package.item num) :
  hasEntry customs it → ∃ m', addItemValue customs m it = Ok m'.
Proof.
  unfold hasEntry, addItemValue. intros [itemData ->]. eauto.
Qed.

Lemma addItemValue_fail (customs : Customs.t num) (m : gmap string num)
    (it : Package.item num) :
  ¬ hasEntry customs it → addItemValue customs m it = TypeError.
Proof.
  unfold hasEntry, addItemValue. intros Hno.
  destruct (Customs.items customs !! Package.product_id it); [|reflexivity].
  destruct Hno. eauto.
Qed.

Lemma getValuesByProductId_allItems (packages : Obj.t (Package.t num))
    (customs : Customs.t num) :
  getValuesByProductId packages customs =
  foldM (addItemValue customs) (allItems packages)
        (zeroByProductId (usedProductIds packages)).
Proof.
  unfold getValuesByProductId, allItems.
  apply (foldM_concat (addItemValue customs) Package.items).
Qed.

Lemma getValuesByProductId_total (packages : Obj.t (Package.t num))
    (customs : Customs.t num) :
  (allEntries packages customs → ∃ m, getValuesByProductId packages customs = Ok m)
  ∧ (¬ allEntries packages customs → getValuesByProductId packages customs = TypeError).
Proof.
  rewrite getValuesByProductId_allItems, allEntries_allItems.
  apply (foldM_total (addItemValue customs) (hasEntry customs)).
  - intros m it. apply addItemValue_ok.
  - intros m it. apply addItemValue_fail.
Qed.

Lemma getClassesAbove2500usd_total (customs : Customs.t num)
    (valuesByTariffNumber : gmap string num) (pckg : Package.t num) :
  (Forall (hasEntry customs) (Package.items pckg) →
   ∃ classes, getClassesAbove2500usd customs valuesByTariffNumber pckg = Ok classes)
  ∧ (¬ Forall (hasEntry customs) (Package.items pckg) →
     getClassesAbove2500usd customs valuesByTariffNumber pckg = TypeError).
Proof.
  unfold getClassesAbove2500usd.
  apply (foldM_total _ (hasEntry customs)); unfold addClassAbove2500usd.
  - intros classes it [itemData Hentry]. rewrite Hentry.
    destruct (above2500 _ _); eauto.
  - intros classes it Hno.
    destruct (Customs.items customs !! Package.product_id it) eqn:Hentry; [|reflexivity].
    destruct Hno. unfold hasEntry. rewrite Hentry. eauto.
Qed.

Lemma customsPackageErrors_total (customs : Customs.t num)
    (valuesByTariffNumber : gmap string num) (code : option string) (name : string)
    (pckg : Package.t num) :
  (Forall (hasEntry customs) (Package.items pckg) →
   ∃ errors, customsPackageErrors customs valuesByTariffNumber code name pckg = Ok errors)
  ∧ (¬ Forall (hasEntry customs) (Package.items pckg) →
     customsPackageErrors customs valuesByTariffNumber code name pckg = TypeError).
Proof.
  unfold customsPackageErrors.
  destruct (getClassesAbove2500usd_total customs valuesByTariffNumber pckg) as [Hok Hfail].
  split.
  - intros Hall. destruct (Hok Hall) as [classes ->]. simpl. eauto.
  - intros Hno. rewrite (Hfail Hno). reflexivity.
Qed.

(** With an entry for every referenced product, [getCustomsErrors]
    completes. *)
Lemma getCustomsErrors_completes (packages : Obj.t (Package.t num))
    (customs : Customs.t num) (destinationCountryCode : option string)
    (destinationCountryName : string) :
  allEntries packages customs →
  ∃ errors, getCustomsErrors packages customs destinationCountryCode
              destinationCountryName = Ok errors.
Proof.
  unfold getCustomsErrors. intros Hall.
  destruct (proj1 (getValuesByProductId_total packages customs) Hall) as [m ->].
  simpl. unfold Obj.mapValuesM.
  edestruct (mapM_total
               (λ kv : string * Package.t num,
                  bind (customsPackageErrors customs
                          (getValuesByTariffNumber customs (usedProductIds packages) m)
                          destinationCountryCode destinationCountryName kv.2)
                       (λ b, Ok (kv.1, b)))
               (λ kv, Forall (hasEntry customs) (Package.items kv.2)) packages)
    as [Hmap _].
  - intros kv Hkv.
    destruct (proj1 (customsPackageErrors_total customs
                       (getValuesByTariffNumber customs (usedProductIds packages) m)
                       destinationCountryCode destinationCountryName kv.2) Hkv)
      as [errors ->].
    simpl. eauto.
  - intros kv Hkv.
    rewrite (proj2 (customsPackageErrors_total customs
                      (getValuesByTariffNumber customs (usedProductIds packages) m)
                      destinationCountryCode destinationCountryName kv.2) Hkv).
    reflexivity.
  - destruct Hmap as [l ->]; [|simpl; eauto].
    apply allEntries_Forall in Hall. rewrite Forall_forall in Hall.
    apply Forall_forall. intros [k pckg] Hin. apply Hall.
    apply list_elem_of_In, in_map_iff. exists (k, pckg).
    split; [reflexivity | by apply list_elem_of_In].
Qed.

(** Without, its first loop dereferences [undefined]. *)
Lemma getCustomsErrors_throws (packages : Obj.t (Package.t num))
    (customs : Customs.t num) (destinationCountryCode : option string)
    (destinationCountryName : string) :
  ¬ allEntries packages customs →
  getCustomsErrors packages customs destinationCountryCode destinationCountryName
  = TypeError.
Proof.
  unfold getCustomsErrors. intros Hno.
  rewrite (proj2 (getValuesByProductId_total packages customs) Hno). reflexivity.
Qed.


End CustomsTotality.

(** ** Customs validation: the two passes *)

Section CustomsAggregation.
Context {num : Type} `{NumberOps num} `{Collaborators}.

Lemma zeroByProductId_lookup (ids : list string) (id : string) :
  zeroByProductId ids !! id = if decide (id ∈ ids) then Some (num_of_Z 0) else None.
Proof.
  unfold zeroByProductId.
  assert (∀ (m : gmap string num),
            foldl (λ m id, <[id := num_of_Z 0]> m) m ids !! id
            = if decide (id ∈ ids) then Some (num_of_Z 0) else m !! id) as Hloop.
  { induction ids as [|k ids IH]; intros m; cbn [foldl].
    - destruct (decide (id ∈ [])) as [Hin|_]; [by apply elem_of_nil in Hin | reflexivity].
    - rewrite IH.
      destruct (decide (id ∈ ids)) as [Hin|Hin], (decide (id ∈ k :: ids)) as [Hin'|Hin'];
        try reflexivity.
      + destruct Hin'. by apply list_elem_of_further.
      + apply elem_of_cons in Hin' as [->|Hin']; [apply lookup_insert_eq | contradiction].
      + apply lookup_insert_ne. intros ->. apply Hin', list_elem_of_here. }
  rewrite Hloop. case_decide; [reflexivity | apply lookup_empty].
Qed.

(** The first loop adds to the entry of a product the values its items
    declare, in order. *)
Lemma addItemValue_loop (customs : Customs.t num) (l : list (Package.item num))
    (m m' : gmap string num) (id : string) :
  foldM (addItemValue customs) l m = Ok m' →
  (∀ it, it ∈ l → is_Some (m !! Package.product_id it)) →
  m' !! id =
  (λ start, foldl (λ acc it, num_add acc (declaredValue customs it)) start
                  (filter (λ it, Package.product_id it = id) l)) <$> m !! id.
Proof.
  revert m. induction l as [|it l IH]; intros m Hloop Hkeys; simpl in Hloop.
  - injection Hloop as <-. rewrite filter_nil. simpl. by destruct (m !! id).
  - unfold addItemValue in Hloop at 1.
    destruct (Hkeys it (list_elem_of_here _ _)) as [current Hcurrent].
    destruct (Customs.items customs !! Package.product_id it) as [itemData|] eqn:Hentry;
      simpl in Hloop; [|discriminate].
    assert (declaredValue customs it
            = num_mul (Package.quantity it) (toNumber (Customs.value itemData)))
      as Hdeclared by (unfold declaredValue; rewrite Hentry; reflexivity).
    rewrite (IH _ Hloop).
    + rewrite filter_cons. case_decide as Hid.
      * rewrite <- Hid, lookup_insert_eq, Hcurrent. cbn [fmap option_fmap option_map foldl default].
        rewrite Hdeclared. reflexivity.
      * rewrite lookup_insert_ne by assumption. reflexivity.
    + intros it' Hin.
      destruct (decide (Package.product_id it = Package.product_id it')) as [<-|Hne].
      * rewrite lookup_insert_eq. eauto.
      * rewrite lookup_insert_ne by assumption. apply Hkeys. by apply list_elem_of_further.
Qed.

Lemma product_id_used (packages : Obj.t (Package.t num)) (it : Package.item num) :
  it ∈ allItems packages → Package.product_id it ∈ usedProductIds packages.
Proof.
  unfold allItems, usedProductIds. intros Hin. apply elem_of_uniq.
  induction (Obj.vals packages) as [|pckg l IH]; simpl in *.
  - by apply elem_of_nil in Hin.
  - apply elem_of_app in Hin as [Hin|Hin]; apply elem_of_app.
    + left. apply list_elem_of_In, in_map, list_elem_of_In, Hin.
    + right. apply IH, Hin.
Qed.

(** First pass: the value of a used product is the sum, over the items of
    all packages, of quantity times the product's customs value. *)
Lemma getValuesByProductId_lookup (packages : Obj.t (Package.t num))
    (customs : Customs.t num) (valuesByProductId : gmap string num) (id : string) :
  getValuesByProductId packages customs = Ok valuesByProductId →
  valuesByProductId !! id =
  if decide (id ∈ usedProductIds packages)
  then Some (accumulate (declaredValue customs)
               (filter (λ it, Package.product_id it = id) (allItems packages)))
  else None.
Proof.
  rewrite getValuesByProductId_allItems. intros Hloop.
  rewrite (addItemValue_loop _ _ _ _ id Hloop).
  - rewrite zeroByProductId_lookup. case_decide; reflexivity.
  - intros it Hin. rewrite zeroByProductId_lookup.
    rewrite decide_True by (by apply product_id_used). eauto.
Qed.

(** The second loop, from any value of [valuesByTariffNumber]. *)
Lemma addTariffValue_loop (valuesByProductId : gmap string num)
    (picked : Obj.t (Customs.item num)) (m : gmap string num) (code : string) :
  foldl (addTariffValue valuesByProductId) m picked !! code =
  classValue valuesByProductId (m !! code) (classMembers code picked).
Proof.
  unfold classValue, classMembers.
  revert m. induction picked as [|[productId itemData] picked IH]; intros m.
  - reflexivity.
  - rewrite filter_cons. cbn [foldl]. rewrite IH. cbn [fst snd].
    unfold addTariffValue.
    destruct (Customs.tariffNumber itemData) as [tariffNumber|] eqn:Htariff.
    + destruct (Nat.eqb_spec (String.length tariffNumber) 6) as [Hlen|Hlen].
      * destruct (truthy (Some tariffNumber)) eqn:Htruthy.
        -- cbn [andb]. destruct (decide (tariffNumber = code)) as [->|Hne].
           ++ rewrite decide_True by (split; [reflexivity | assumption]).
              rewrite lookup_insert_eq. reflexivity.
           ++ rewrite decide_False by (intros [[=] _]; contradiction).
              rewrite lookup_insert_ne by assumption. reflexivity.
        -- exfalso. destruct tariffNumber; simpl in *; discriminate.
      * rewrite andb_false_r.
        rewrite decide_False; [reflexivity|].
        intros [[= ->] Hsix]. contradiction.
    + rewrite decide_False by (intros [[=] _]). reflexivity.
Qed.

(** Second pass: the value of a tariff class. *)
Lemma getValuesByTariffNumber_lookup (customs : Customs.t num) (ids : list string)
    (valuesByProductId : gmap string num) (code : string) :
  getValuesByTariffNumber customs ids valuesByProductId !! code =
  classValue valuesByProductId None
    (classMembers code (Obj.pick (Customs.items customs) ids)).
Proof.
  unfold getValuesByTariffNumber. rewrite addTariffValue_loop, lookup_empty.
  reflexivity.
Qed.

(** Only tariff numbers of exactly 6 characters have a value. *)
Lemma getValuesByTariffNumber_length (customs : Customs.t num) (ids : list string)
    (valuesByProductId : gmap string num) (code : string) :
  String.length code ≠ 6 →
  getValuesByTariffNumber customs ids valuesByProductId !! code = None.
Proof.
  intros Hlen. rewrite getValuesByTariffNumber_lookup.
  unfold classMembers.
  induction (Obj.pick (Customs.items customs) ids) as [|entry picked IH];
    [reflexivity|].
  rewrite filter_cons, decide_False by (intros [_ ?]; contradiction). exact IH.
Qed.

End CustomsAggregation.

(** ** Customs validation: the ITN threshold *)

Section CustomsThreshold.
Context {num : Type} `{NumberOps num} `{Collaborators}.

Lemma above2500_Some (valuesByTariffNumber : gmap string num) (code : string) :
  above2500 valuesByTariffNumber (Some code) = true
  ↔ ∃ v, valuesByTariffNumber !! code = Some v ∧ num_lt (num_of_Z 2500) v = true.
Proof.
  unfold above2500. simpl. destruct (valuesByTariffNumber !! code) as [v|].
  - split; [eauto | intros (v' & [= <-] & Hlt); exact Hlt].
  - split; [discriminate | intros (v' & [=] & _)].
Qed.

(** The classes collected by the loop over the items of a package. *)
Lemma addClassAbove2500usd_loop (customs : Customs.t num)
    (valuesByTariffNumber : gmap string num) (l : list (Package.item num))
    (acc classes : list (option string)) (tariffNumber : option string) :
  foldM (addClassAbove2500usd customs valuesByTariffNumber) l acc = Ok classes →
  tariffNumber ∈ classes ↔
  tariffNumber ∈ acc
  ∨ ∃ it itemData,
      it ∈ l
      ∧ Customs.items customs !! Package.product_id it = Some itemData
      ∧ Customs.tariffNumber itemData = tariffNumber
      ∧ above2500 valuesByTariffNumber tariffNumber = true.
Proof.
  revert acc. induction l as [|it l IH]; intros acc Hloop; simpl in Hloop.
  - injection Hloop as <-. split; [auto|].
    intros [Hin|(it & d & Hin & _)]; [assumption | by apply elem_of_nil in Hin].
  - unfold addClassAbove2500usd in Hloop at 1.
    destruct (Customs.items customs !! Package.product_id it) as [itemData|] eqn:Hentry;
      simpl in Hloop; [|discriminate].
    destruct (above2500 valuesByTariffNumber (Customs.tariffNumber itemData)) eqn:Habove;
      simpl in Hloop; rewrite (IH _ Hloop); clear IH Hloop.
    + rewrite elem_of_set_add. split.
      * intros [[->|Hin]|(it' & d & Hin & Hrest)].
        -- right. exists it, itemData. split; [apply list_elem_of_here | auto].
        -- by left.
        -- right. exists it', d. split; [by apply list_elem_of_further | assumption].
      * intros [Hin|(it' & d & Hin & Hd & Htn & Hab)]; [auto|].
        apply elem_of_cons in Hin as [->|Hin].
        -- left. left. congruence.
        -- right. exists it', d. auto.
    + split.
      * intros [Hin|(it' & d & Hin & Hrest)]; [by left|].
        right. exists it', d. split; [by apply list_elem_of_further | assumption].
      * intros [Hin|(it' & d & Hin & Hd & Htn & Hab)]; [by left|].
        apply elem_of_cons in Hin as [->|Hin].
        -- rewrite Hentry in Hd. injection Hd as <-. congruence.
        -- right. exists it', d. auto.
Qed.

(** The ITN error of a package without [itn], bound for a country other
    than "CA", whose set [classesAbove2500usd] is not empty. *)
Lemma customsPackageErrors_itn (customs : Customs.t num)
    (valuesByTariffNumber : gmap string num) (code : option string) (name : string)
    (pckg : Package.t num) (errors : gmap string string)
    (class : option string) (classes : list (option string)) :
  customsPackageErrors customs valuesByTariffNumber code name pckg = Ok errors →
  getClassesAbove2500usd customs valuesByTariffNumber pckg = Ok (class :: classes) →
  truthy (Package.itn pckg) = false →
  code ≠ Some "CA" →
  errors !! "itn" = Some (CustomsMsg.itn_threshold (prop_key class)).
Proof.
  unfold customsPackageErrors. intros Herrors Hclasses Hitn Hcode.
  assert (eq_lit "CA" code = false) as Hca.
  { destruct (eq_lit "CA" code) eqn:Hca; [|reflexivity].
    apply eq_lit_true in Hca. contradiction. }
  rewrite Hclasses, Hitn, Hca in Herrors. simpl in Herrors. injection Herrors as <-.
  apply lookup_insert_eq.
Qed.

End CustomsThreshold.




Lemma getRatesErrors_cases_witness :
  Obj.get (getRatesErrors Forms.priority_rates) "box" = Some [].
Proof.
  destruct (getRatesErrors_cases Forms.priority_rates "box"
              {| Rates.default := {| Rates.rates := [Forms.priority]; Rates.errors := [] |};
                 Rates.signature := ∅ |} eq_refl)
    as (result & Hget & _ & _ & Hselected & _).
  rewrite Hget. f_equal. apply Hselected; reflexivity.
Defined.

(** ** The step gate *)

Section StepGate.
Context {num : Type} `{NumberOps num} `{Collaborators}.

Lemma isMilitary_true (address : gmap string string) :
  isMilitary address = true ↔ military address.
Proof.
  unfold isMilitary, military.
  rewrite andb_true_iff, eq_lit_true, includes_true. reflexivity.
Qed.

(** C6: [isCustomsFormRequired] returns true if and only if some address has
    country "US" and a state in the military-state list, or the origin and
    destination country codes differ; for every same-country shipment between
    addresses that are not military (e.g. origin "GU" to destination "GU") it
    returns false. *)
Theorem isCustomsFormRequired_iff (state : State num) (orderId siteId : Z)
    (form : Form.t num) :
  getForm state orderId siteId = Some form →
  let origin := getAddressValues (Form.origin form) in
  let destination := getAddressValues (Form.destination form) in
  (isCustomsFormRequired state orderId siteId = true
   ↔ military origin ∨ military destination
     ∨ origin !! "country" ≠ destination !! "country")
  ∧ (origin !! "country" = destination !! "country" →
     ¬ military origin → ¬ military destination →
     isCustomsFormRequired state orderId siteId = false).
Proof.
  intros Hform origin destination. unfold isCustomsFormRequired. rewrite Hform.
  fold origin. fold destination.
  pose proof (isMilitary_true origin) as Ho.
  pose proof (isMilitary_true destination) as Hd.
  destruct (isMilitary origin), (isMilitary destination);
    try (split; [split; [intros _ | reflexivity] | intros _ Hno Hnd]; tauto).
  rewrite negb_true_iff, negb_false_iff, bool_decide_eq_false, bool_decide_eq_true.
  split.
  - split; [tauto|]. intros [Hm|[Hm|Hne]]; [| |assumption].
    + apply Ho in Hm. discriminate.
    + apply Hd in Hm. discriminate.
  - tauto.
Qed.

End StepGate.

(** ** The customs step *)

Section CustomsStep.
Context {num : Type} `{NumberOps num} `{Collaborators}.

Lemma used_product_item (packages : Obj.t (Package.t num)) (id : string) :
  id ∈ usedProductIds packages →
  ∃ it, it ∈ allItems packages ∧ Package.product_id it = id.
Proof.
  unfold usedProductIds, allItems. rewrite elem_of_uniq.
  induction (Obj.vals packages) as [|pckg l IH]; simpl.
  - intros Hin. by apply elem_of_nil in Hin.
  - rewrite elem_of_app. intros [Hin|Hin].
    + apply list_elem_of_In, in_map_iff in Hin as (it & Hid & Hin).
      exists it. split; [|assumption].
      apply elem_of_app. left. by apply list_elem_of_In.
    + destruct (IH Hin) as (it & Hit & Hid).
      exists it. split; [|assumption]. apply elem_of_app. by right.
Qed.

(** A form whose errors were derived has an entry for every used product. *)
Lemma getCustomsErrors_entries (packages : Obj.t (Package.t num))
    (customs : Customs.t num) (code : option string) (name : string)
    (errors : CustomsErrors.t) :
  getCustomsErrors packages customs code name = Ok errors →
  ∀ id, id ∈ usedProductIds packages → is_Some (Customs.items customs !! id).
Proof.
  intros Hrun id Hid.
  destruct (used_product_item _ _ Hid) as (it & Hit & <-).
  destruct (decide (Forall (hasEntry customs) (allItems packages))) as [Hall|Hno].
  - rewrite Forall_forall in Hall. by apply Hall.
  - rewrite <- allEntries_allItems in Hno.
    unfold getCustomsErrors in Hrun.
    rewrite (proj2 (getValuesByProductId_total packages customs) Hno) in Hrun.
    discriminate.
Qed.

Lemma isUnreviewed_reviewed (customs : Customs.t num) (id : string) :
  is_Some (Customs.items customs !! id) →
  ∃ flag, isUnreviewed customs id = Ok flag ∧ (flag = true ↔ ¬ reviewed customs id).
Proof.
  unfold isUnreviewed, reviewed. intros [itemData Hentry]. rewrite Hentry.
  eexists. split; [reflexivity|].
  rewrite !orb_true_iff, negb_true_iff, !bool_decide_eq_true.
  split.
  - intros Hflag (d & [= <-] & Htariff & Hweight & Hvalue).
    destruct Hflag as [[Hnil|?]|?]; [|contradiction|contradiction].
    destruct (Customs.tariffNumber itemData); [discriminate | contradiction].
  - intros Hno.
    destruct (Customs.tariffNumber itemData) as [tariff|] eqn:Htariff; [|auto].
    destruct (decide (Customs.ignoreWeightValidation customs !! id = Some true));
      [auto|].
    destruct (decide (Customs.ignoreValueValidation customs !! id = Some true));
      [auto|].
    destruct Hno. exists itemData. rewrite Htariff. auto.
Qed.

Lemma mapM_isUnreviewed (customs : Customs.t num) (ids : list string) :
  (∀ id, id ∈ ids → is_Some (Customs.items customs !! id)) →
  ∃ flags,
    mapM (isUnreviewed customs) ids = Ok flags
    ∧ (existsb id flags = true ↔ ∃ id, id ∈ ids ∧ ¬ reviewed customs id).
Proof.
  induction ids as [|productId ids IH]; intros Hentries; simpl.
  - exists []. split; [reflexivity|]. simpl.
    split; [discriminate | intros (? & Hin & _); by apply elem_of_nil in Hin].
  - destruct (isUnreviewed_reviewed customs productId) as (flag & -> & Hflag);
      [apply Hentries, list_elem_of_here|].
    destruct IH as (flags & -> & Hflags);
      [intros ? ?; by apply Hentries, list_elem_of_further|].
    exists (flag :: flags). split; [reflexivity|].
    simpl. rewrite orb_true_iff. unfold id at 1. rewrite Hflag, Hflags.
    split.
    + intros [Hno|(id' & Hin & Hno)].
      * exists productId. split; [apply list_elem_of_here | assumption].
      * exists id'. split; [by apply list_elem_of_further | assumption].
    + intros (id' & Hin & Hno).
      apply elem_of_cons in Hin as [->|Hin]; [by left | right; eauto].
Qed.

(** C2, as amended: the customs step of [getFirstErroneousStep] is evaluated
    only when a customs form is required, and it fails when the customs error
    map has non-empty leaves or when not every used product's customs fields
    have been explicitly reviewed, where a product counts as reviewed when its
    tariff number is present AND it is marked neither as ignoring weight
    validation nor as ignoring value validation. *)
Theorem customs_step_fails_iff (state : State num) (orderId siteId : Z)
    (form : Form.t num) (errors : FormErrors.t) :
  getForm state orderId siteId = Some form →
  getFormErrors state orderId siteId = Ok (Some errors) →
  addressFails (Form.origin form) (Some (FormErrors.origin errors)) = false →
  addressFails (Form.destination form) (Some (FormErrors.destination errors)) = false →
  hasNonEmptyLeaves (FormErrors.packages errors) = false →
  getFirstErroneousStep state orderId siteId = Ok (Some "customs")
  ↔ isCustomsFormRequired state orderId siteId = true
    ∧ (hasNonEmptyLeaves (FormErrors.customs errors) = true
       ∨ ∃ id, id ∈ usedProductIds (Form.selected (Form.packages form))
               ∧ ¬ reviewed (Form.customs form) id).
Proof.
  intros Hform Herrors Horigin Hdestination Hpackages.
  assert (∀ id, id ∈ usedProductIds (Form.selected (Form.packages form)) →
                is_Some (Customs.items (Form.customs form) !! id)) as Hentries.
  { unfold getFormErrors, getForm in *.
    destruct (isLoaded state orderId siteId); [|discriminate]. simpl in Herrors.
    destruct (getShippingLabel state orderId siteId) as [label|]; [|discriminate].
    simpl in Hform. rewrite Hform in Herrors.
    destruct (getCustomsErrors _ _ _ _) as [customs|] eqn:Hcustoms; [|discriminate].
    by apply (getCustomsErrors_entries _ _ _ _ _ Hcustoms). }
  unfold getFirstErroneousStep. rewrite Hform, Herrors.
  cbn [bind fmap option_fmap option_map]. rewrite Horigin, Hdestination.
  change (hasNonEmptyLeaves (Some (FormErrors.packages errors)))
    with (hasNonEmptyLeaves (FormErrors.packages errors)).
  rewrite Hpackages. unfold customsFails.
  change (hasNonEmptyLeaves (Some (FormErrors.customs errors)))
    with (hasNonEmptyLeaves (FormErrors.customs errors)).
  destruct (isCustomsFormRequired state orderId siteId).
  - destruct (hasNonEmptyLeaves (FormErrors.customs errors)).
    + cbn [bind]. split; [auto | reflexivity].
    + unfold isCustomsFormStepSubmitted. rewrite Hform.
      destruct (mapM_isUnreviewed _ _ Hentries) as (flags & -> & Hflags).
      cbn [bind]. rewrite negb_involutive.
      destruct (existsb id flags).
      * split; [|reflexivity]. intros _. split; [reflexivity|].
        right. by apply Hflags.
      * split.
        -- destruct (hasNonEmptyLeaves (Some (FormErrors.rates errors))); discriminate.
        -- intros [_ [Hleaves|Hunreviewed]]; [discriminate|].
           apply Hflags in Hunreviewed. discriminate.
  - cbn [bind]. split.
    + destruct (hasNonEmptyLeaves (Some (FormErrors.rates errors))); discriminate.
    + intros [Hrequired _]. discriminate.
Qed.

Lemma used_entries (packages : Obj.t (Package.t num)) (customs : Customs.t num) :
  allEntries packages customs →
  ∀ id, id ∈ usedProductIds packages → is_Some (Customs.items customs !! id).
Proof.
  intros Hall id Hid.
  destruct (used_product_item _ _ Hid) as (it & Hit & <-).
  apply allEntries_allItems in Hall. rewrite Forall_forall in Hall. by apply Hall.
Qed.

(** With an entry for every referenced product, the form errors are derived
    and the customs step is decided. *)
Lemma getFormErrors_completes (state : State num) (orderId siteId : Z)
    (form : Form.t num) :
  getForm state orderId siteId = Some form →
  allEntries (Form.selected (Form.packages form)) (Form.customs form) →
  ∃ errors, getFormErrors state orderId siteId = Ok errors.
Proof.
  unfold getForm, getFormErrors. intros Hform Hall.
  destruct (isLoaded state orderId siteId); [|eauto]. simpl.
  destruct (getShippingLabel state orderId siteId) as [label|]; [|discriminate].
  simpl in Hform. rewrite Hform.
  destruct (getCustomsErrors_completes _ _
              (values (Form.destination form) !! "country")
              (getCountryName (values (Form.destination form) !! "country")) Hall)
    as [customs ->].
  simpl. eauto.
Qed.

Lemma customsFails_completes (state : State num) (orderId siteId : Z)
    (form : Form.t num) (errors : option CustomsErrors.t) :
  getForm state orderId siteId = Some form →
  allEntries (Form.selected (Form.packages form)) (Form.customs form) →
  ∃ fails, customsFails state orderId siteId errors = Ok fails.
Proof.
  intros Hform Hall. unfold customsFails.
  destruct (isCustomsFormRequired state orderId siteId); [|eauto].
  destruct (hasNonEmptyLeaves errors); [eauto|].
  unfold isCustomsFormStepSubmitted. rewrite Hform.
  destruct (mapM_isUnreviewed _ _ (used_entries _ _ Hall)) as (flags & -> & _).
  simpl. eauto.
Qed.


End CustomsStep.

(** C2, as stated, fails: a product whose tariff number is present and which
    is marked as ignoring weight validation counts as reviewed in the words of
    the claim, and the customs error map is empty, yet the customs step
    fails. *)
Lemma customs_step_fails_on_ignored_weight :
  let state := Forms.export_state true in
  isCustomsFormRequired state 123 1 = true
  ∧ (∃ errors, getFormErrors state 123 1 = Ok (Some errors)
               ∧ hasNonEmptyLeaves (FormErrors.customs errors) = false)
  ∧ usedProductIds [("box", Forms.box "medium" [Forms.one "7"])] = ["7"]
  ∧ reviewedAsClaimed (Forms.declaration true) "7"
  ∧ getFirstErroneousStep state 123 1 = Ok (Some "customs").
Proof.
  split; [reflexivity|]. split; [|split; [reflexivity|split; [|reflexivity]]].
  - eexists. split; [vm_compute; reflexivity|]. reflexivity.
  - exists (Forms.product 12 (Some "691110")). split; [reflexivity|].
    left. discriminate.
Qed.

Lemma customs_step_fails_iff_witness :
  ∃ form errors,
    getForm (Forms.export_state true) 123 1 = Some form
    ∧ getFormErrors (Forms.export_state true) 123 1 = Ok (Some errors)
    ∧ (getFirstErroneousStep (Forms.export_state true) 123 1 = Ok (Some "customs")
       ↔ isCustomsFormRequired (Forms.export_state true) 123 1 = true
         ∧ (hasNonEmptyLeaves (FormErrors.customs errors) = true
            ∨ ∃ id, id ∈ usedProductIds (Form.selected (Form.packages form))
                    ∧ ¬ reviewed (Form.customs form) id)).
Proof.
  destruct (getForm (Forms.export_state true) 123 1) as [form|] eqn:Hform;
    [|vm_compute in Hform; discriminate].
  destruct (getFormErrors (Forms.export_state true) 123 1) as [[errors|]|] eqn:Herrors;
    [|vm_compute in Herrors; discriminate|vm_compute in Herrors; discriminate].
  exists form, errors. split; [reflexivity|]. split; [reflexivity|].
  vm_compute in Hform. injection Hform as <-.
  apply (customs_step_fails_iff (Forms.export_state true) 123 1 _ errors eq_refl Herrors);
    vm_compute in Herrors; injection Herrors as <-; reflexivity.
Defined.


Lemma isCustomsFormRequired_iff_witness :
  isCustomsFormRequired Forms.guam_state 123 1 = false.
Proof.
  destruct (isCustomsFormRequired_iff Forms.guam_state 123 1 _ eq_refl) as [_ Hsame].
  apply Hsame.
  - reflexivity.
  - intros [Hcountry _]. vm_compute in Hcountry. discriminate.
  - intros [Hcountry _]. vm_compute in Hcountry. discriminate.
Defined.

(** * Further properties *)

(** ** Address rules *)

Section AddressRules.
Context `{Collaborators}.

Lemma if_insert_empty (c : bool) (k v : string) (e : gmap string string) :
  (if c then <[k := v]> e else e) = ∅ ↔ c = false ∧ e = ∅.
Proof.
  destruct c.
  - split; [intros Hins; by apply insert_non_empty in Hins | intros [[=] _]].
  - tauto.
Qed.

Lemma if_keep_empty (c : bool) (k v : string) (e : gmap string string) :
  (if c then e else <[k := v]> e) = ∅ ↔ c = true ∧ e = ∅.
Proof.
  destruct c.
  - tauto.
  - split; [intros Hins; by apply insert_non_empty in Hins | intros [[=] _]].
Qed.

(** The raw errors are empty exactly when every rule passes. *)
Lemma raw_errors_empty (a : Address) (ftv : FieldsToValidate) :
  let av := getAddressValues a in
  getRawAddressErrors a ftv = ∅
  ↔ (∀ field, field ∈ requiredFields → truthy (values a !! field) = true)
    ∧ (truthy (av !! "name") = true ∨ truthy (av !! "company") = true)
    ∧ (includes ACCEPTED_USPS_ORIGIN_COUNTRIES (av !! "country") = true →
       postcode_matches (av !! "postcode") = true)
    ∧ (truthy (av !! "state") = true ∨ hasStates (av !! "country") = false)
    ∧ (originPhone ftv = true →
       truthy (av !! "phone") = true
       ∧ phone_digits (default "" (av !! "phone")) = 10)
    ∧ (destinationPhone ftv = true → truthy (av !! "phone") = true).
Proof.
  intros av. unfold getRawAddressErrors. fold av. cbn [foldl requiredFields].
  rewrite if_insert_empty.
  set (required := if truthy (values a !! "country") then _ else _).
  set (named := if negb (truthy (av !! "name")) && negb (truthy (av !! "company"))
                then _ else required).
  set (zipped := if includes ACCEPTED_USPS_ORIGIN_COUNTRIES (av !! "country")
                    && negb (postcode_matches (av !! "postcode"))
                 then _ else named).
  set (stated := if negb (truthy (av !! "state")) && hasStates (av !! "country")
                 then _ else zipped).
  assert (required = ∅
          ↔ ∀ field, field ∈ requiredFields → truthy (values a !! field) = true)
    as Hrequired.
  { subst required. rewrite !if_keep_empty. unfold requiredFields.
    split.
    - intros (Hcountry & Hpostcode & Hcity & Haddress & _) field Hfield.
      rewrite !elem_of_cons in Hfield.
      destruct Hfield as [->|[->|[->|[->|Hnil]]]]; try assumption.
      by apply elem_of_nil in Hnil.
    - intros Hall. repeat split; try apply Hall;
        rewrite !elem_of_cons; auto. }
  assert (named = ∅
          ↔ required = ∅
            ∧ (truthy (av !! "name") = true ∨ truthy (av !! "company") = true))
    as Hnamed.
  { subst named.
    destruct (truthy (av !! "name")), (truthy (av !! "company")); cbn [negb andb];
      try (split; [intros ->; auto | tauto]).
    split; [intros Hins; by apply insert_non_empty in Hins|].
    intros [_ [[=]|[=]]]. }
  assert (zipped = ∅
          ↔ named = ∅
            ∧ (includes ACCEPTED_USPS_ORIGIN_COUNTRIES (av !! "country") = true →
               postcode_matches (av !! "postcode") = true)) as Hzipped.
  { subst zipped. rewrite if_insert_empty, andb_false_iff, negb_false_iff.
    destruct (includes _ _), (postcode_matches _); intuition congruence. }
  assert (stated = ∅
          ↔ zipped = ∅
            ∧ (truthy (av !! "state") = true ∨ hasStates (av !! "country") = false))
    as Hstated.
  { subst stated. rewrite if_insert_empty, andb_false_iff, negb_false_iff. tauto. }
  assert ((if originPhone ftv
           then if negb (truthy (av !! "phone"))
                then <["phone" := Msg.origin_phone_required]> stated
                else if negb (phone_digits (default "" (av !! "phone")) =? 10)%nat
                then <["phone" := Msg.phone_format]> stated
                else stated
           else stated) = ∅
          ↔ stated = ∅
            ∧ (originPhone ftv = true →
               truthy (av !! "phone") = true
               ∧ phone_digits (default "" (av !! "phone")) = 10)) as Hphone.
  { destruct (originPhone ftv); [|intuition congruence].
    destruct (truthy (av !! "phone")); cbn [negb].
    - destruct (Nat.eqb_spec (phone_digits (default "" (av !! "phone"))) 10);
        cbn [negb].
      + tauto.
      + split; [intros Hins; by apply insert_non_empty in Hins|].
        intros [_ Hten]. destruct (Hten eq_refl) as [_ ?]. contradiction.
    - split; [intros Hins; by apply insert_non_empty in Hins|].
      intros [_ Hphone]. destruct (Hphone eq_refl) as [[=] _]. }
  rewrite Hphone, Hstated, Hzipped, Hnamed, Hrequired.
  rewrite andb_false_iff, negb_false_iff.
  destruct (destinationPhone ftv), (truthy (av !! "phone")); intuition congruence.
Qed.

(** X1: [getRawAddressErrors] reports no error at all exactly when every
    rule passes: the four required fields are filled in the edited values; a
    name or a company is given; the postcode has the ZIP format when the
    country is an accepted USPS origin; a state is given when the country has
    states; with [originPhone], a phone is given that leaves 10 digits; with
    [destinationPhone], a phone is given. *)
Theorem getRawAddressErrors_empty_iff (a : Address) (ftv : FieldsToValidate) :
  let av := getAddressValues a in
  getRawAddressErrors a ftv = ∅
  ↔ (∀ field, field ∈ requiredFields → truthy (values a !! field) = true)
    ∧ (truthy (av !! "name") = true ∨ truthy (av !! "company") = true)
    ∧ (includes ACCEPTED_USPS_ORIGIN_COUNTRIES (av !! "country") = true →
       postcode_matches (av !! "postcode") = true)
    ∧ (truthy (av !! "state") = true ∨ hasStates (av !! "country") = false)
    ∧ (originPhone ftv = true →
       truthy (av !! "phone") = true
       ∧ phone_digits (default "" (av !! "phone")) = 10)
    ∧ (destinationPhone ftv = true → truthy (av !! "phone") = true).
Proof. apply raw_errors_empty. Qed.

Ltac outside_required :=
  unfold requiredFields; rewrite !not_elem_of_cons;
  repeat split; try discriminate; apply not_elem_of_nil.

(** X2: the [name] and [company] errors come together: both fields carry the
    "either name or company" error when neither is given, and neither field
    has an error otherwise. *)
Theorem getRawAddressErrors_name_company (a : Address) (ftv : FieldsToValidate) :
  let av := getAddressValues a in
  let errors := getRawAddressErrors a ftv in
  errors !! "name" = errors !! "company"
  ∧ errors !! "name" =
    if truthy (av !! "name") || truthy (av !! "company")
    then None else Some Msg.name_or_company.
Proof.
  intros av errors. subst errors. unfold getRawAddressErrors. fold av.
  destruct (truthy (av !! "name")), (truthy (av !! "company")); cbn [negb andb orb];
    repeat match goal with
           | |- context [if ?b then _ else _] => destruct b
           end;
    repeat (rewrite lookup_insert_eq || rewrite lookup_insert_ne by discriminate);
    (split; [|try reflexivity]);
    rewrite ?required_lookup by outside_required; try reflexivity.
Qed.

(** X3: the [postcode] entry.  When the country is an accepted USPS origin
    and the postcode in use does not have the ZIP format, the format error
    is reported, also for an empty postcode (it replaces the required-field
    error); otherwise the required-field error is reported exactly when the
    edited postcode is empty. *)
Theorem getRawAddressErrors_postcode (a : Address) (ftv : FieldsToValidate) :
  let av := getAddressValues a in
  getRawAddressErrors a ftv !! "postcode" =
  if includes ACCEPTED_USPS_ORIGIN_COUNTRIES (av !! "country")
     && negb (postcode_matches (av !! "postcode"))
  then Some Msg.postcode_format
  else if truthy (values a !! "postcode") then None
  else Some Msg.required.
Proof.
  intros av. unfold getRawAddressErrors. fold av. cbn [foldl requiredFields].
  destruct (includes _ _ && negb _);
    repeat match goal with
           | |- context [if ?b then _ else _] => destruct b
           end;
    repeat (rewrite lookup_insert_eq || rewrite lookup_insert_ne by discriminate);
    try reflexivity; apply lookup_empty.
Qed.

(** The digits of a phone number. *)
Lemma phone_digits_count (phone : string) :
  let digits := List.filter is_digit (chars phone) in
  phone_digits phone = 10
  ↔ (List.length digits = 10 ∧ head digits ≠ Some "1"%char)
    ∨ (List.length digits = 11 ∧ head digits = Some "1"%char).
Proof.
  intros digits. unfold phone_digits. fold digits.
  destruct digits as [|c ds]; cbn [List.length head].
  - split; [discriminate | intros [[[=] _]|[[=] _]]].
  - destruct (Ascii.eqb_spec c "1") as [->|Hc].
    + split.
      * intros ->. right. split; reflexivity.
      * intros [[_ Hhead]|[[= ->] _]]; [by destruct Hhead | reflexivity].
    + split.
      * intros [= ->]. left. split; [reflexivity | congruence].
      * intros [[[= ->] _]|[_ [= ->]]]; [reflexivity | contradiction].
Qed.

(** X4: with [originPhone], a phone that is not empty is accepted exactly
    when it has 10 digits of which the first is not "1", or 11 digits of
    which the first is "1"; all other characters are ignored.  In particular
    a 10-digit number that starts with "1" is refused. *)
Theorem getRawAddressErrors_phone_digits (a : Address) (ftv : FieldsToValidate)
    (phone : string) :
  originPhone ftv = true →
  getAddressValues a !! "phone" = Some phone →
  phone ≠ "" →
  let digits := List.filter is_digit (chars phone) in
  (getRawAddressErrors a ftv !! "phone" = None
   ↔ (List.length digits = 10 ∧ head digits ≠ Some "1"%char)
     ∨ (List.length digits = 11 ∧ head digits = Some "1"%char))
  ∧ (getRawAddressErrors a ftv !! "phone" ≠ None →
     getRawAddressErrors a ftv !! "phone" = Some Msg.phone_format).
Proof.
  intros Horigin Hphone Hne digits. subst digits. rewrite raw_phone, Hphone, Horigin.
  assert (truthy (Some phone) = true) as ->.
  { simpl. destruct (String.eqb_spec phone ""); [contradiction | reflexivity]. }
  rewrite andb_false_r. cbn [negb default from_option id].
  rewrite <- (phone_digits_count phone).
  destruct (Nat.eqb_spec (phone_digits phone) 10); cbn [negb].
  - split; [tauto | intros []; reflexivity].
  - split; [|auto]. split; [discriminate | contradiction].
Qed.

(** X5: on the full rule-set path, taken when a normalized form is present
    or when the address is not flagged as normalized and is either not
    flagged as unverifiable or without field errors, the result holds exactly
    the raw errors of the fields that [ignoreValidation] does not mark: the
    server's [fieldErrors] are not read and no error is added. *)
Theorem getAddressErrors_full_path (a : Address) (ftv : FieldsToValidate)
    (field : string) :
  normalized a ≠ None
  ∨ (isNormalized a = false ∧ (isUnverifiable a = false ∨ fieldErrors a = None)) →
  getAddressErrors a ftv !! field =
  if bool_decide (ignoreValidation a ≫= (.!! field) = Some true) then None
  else getRawAddressErrors a ftv !! field.
Proof.
  intros Hpath. unfold getAddressErrors.
  assert ((if (isNormalized a || isUnverifiable a) && negb (present (normalized a))
           then fieldErrors a else None) = None) as ->.
  { destruct Hpath as [Hnorm|[Hn [Hu|Hfe]]].
    - destruct (normalized a); [|contradiction]. by rewrite andb_false_r.
    - by rewrite Hn, Hu.
    - rewrite Hfe. by destruct (_ && _). }
  assert (isNormalized a && negb (present (normalized a)) = false) as ->.
  { destruct Hpath as [Hnorm|[Hn _]].
    - destruct (normalized a); [|contradiction]. by rewrite andb_false_r.
    - by rewrite Hn. }
  destruct (ignoreValidation a) as [ign|]; cbn [mbind option_bind].
  - unfold suppress_ignored.
    destruct (getRawAddressErrors a ftv !! field) as [msg|] eqn:Hraw.
    + case_bool_decide as Hign.
      * apply map_lookup_filter_None. right. intros msg' _ Hkeep. by apply Hkeep.
      * apply map_lookup_filter_Some. split; [assumption | exact Hign].
    + rewrite (proj2 (map_lookup_filter_None _ _ _)) by (left; assumption).
      by case_bool_decide.
  - rewrite bool_decide_eq_false_2 by discriminate. reflexivity.
Qed.

End AddressRules.

Section Usable.
Context {num : Type} `{NumberOps num} `{Collaborators}.

(** X6: [isAddressUsable] throws when the label or its form is missing.
    Otherwise it tells whether the address of the group passes every field
    rule, the phone rule being applied to the origin only, and only when a
    customs form is required; the normalization state, the server's field
    errors and [ignoreValidation] are not consulted. *)
Theorem isAddressUsable_iff (appState : State num) (orderId siteId : Z)
    (group : Group.t) :
  (getForm appState orderId siteId = None →
   isAddressUsable appState orderId group siteId = TypeError)
  ∧ (∀ form,
       getForm appState orderId siteId = Some form →
       let a := formAddress form group in
       let av := getAddressValues a in
       ∃ usable,
         isAddressUsable appState orderId group siteId = Ok usable
         ∧ (usable = true
            ↔ (∀ field, field ∈ requiredFields → truthy (values a !! field) = true)
              ∧ (truthy (av !! "name") = true ∨ truthy (av !! "company") = true)
              ∧ (includes ACCEPTED_USPS_ORIGIN_COUNTRIES (av !! "country") = true →
                 postcode_matches (av !! "postcode") = true)
              ∧ (truthy (av !! "state") = true ∨ hasStates (av !! "country") = false)
              ∧ (group = Group.origin →
                 isCustomsFormRequired appState orderId siteId = true →
                 truthy (av !! "phone") = true
                 ∧ phone_digits (default "" (av !! "phone")) = 10))).
Proof.
  split.
  - unfold isAddressUsable, getForm.
    destruct (getShippingLabel appState orderId siteId) as [label|]; [|reflexivity].
    cbn [mbind option_bind]. intros ->. reflexivity.
  - intros form Hform. pose proof Hform as Hform'. revert Hform.
    unfold isAddressUsable, getForm. intros Hform.
    set (a := formAddress form group). set (av := getAddressValues a).
    destruct (getShippingLabel appState orderId siteId) as [label|] eqn:Hlabel;
      [|discriminate].
    cbn [mbind option_bind] in Hform. rewrite Hform.
    eexists. split; [reflexivity|].
    rewrite Nat.eqb_eq.
    assert (∀ m : gmap string string, 0 = size m ↔ m = ∅) as Hsize.
    { intros m. rewrite <- map_size_empty_iff. split; congruence. }
    rewrite Hsize, raw_errors_empty. fold a. fold av.
    cbn [originPhone destinationPhone]. clear Hform'.
    destruct group.
    + split.
      * intros (Hr & Hn & Hz & Hs & Hp & _). repeat split; try assumption.
        -- by apply Hp.
        -- by apply Hp.
      * intros (Hr & Hn & Hz & Hs & Hp). repeat split; try assumption.
        -- by apply Hp.
        -- by apply Hp.
        -- discriminate.
    + split.
      * intros (Hr & Hn & Hz & Hs & _). repeat split; try assumption; discriminate.
      * intros (Hr & Hn & Hz & Hs & _). repeat split; try assumption; discriminate.
Qed.

End Usable.

(** ** Reports by package *)

Lemma existsb_false_forall {A : Type} (p : A → bool) (l : list A) :
  existsb p l = false ↔ ∀ x, x ∈ l → p x = false.
Proof.
  induction l as [|y l IH]; simpl.
  - split; [intros _ x Hx; by apply elem_of_nil in Hx | reflexivity].
  - rewrite orb_false_iff, IH. split.
    + intros [Hy Hl] x Hx. apply elem_of_cons in Hx as [->|Hx]; auto.
    + intros Hall. split; [apply Hall, list_elem_of_here|].
      intros x Hx. by apply Hall, list_elem_of_further.
Qed.

Lemma obj_leaves_mapValues {A B : Type} `{Tree B} (f : A → string → B) (o : Obj.t A) :
  hasNonEmptyLeaves (Obj.mapValues f o) = false
  ↔ ∀ k a, (k, a) ∈ o → hasNonEmptyLeaves (f a k) = false.
Proof.
  unfold hasNonEmptyLeaves at 1, obj_tree, Obj.vals, Obj.mapValues.
  rewrite map_map, existsb_false_forall. split.
  - intros Hall k a Hin. apply (Hall (f a k)).
    apply list_elem_of_In, in_map_iff. exists (k, a).
    split; [reflexivity | by apply list_elem_of_In].
  - intros Hall b Hb. apply list_elem_of_In, in_map_iff in Hb as ([k a] & <- & Hin).
    apply Hall. by apply list_elem_of_In.
Qed.

Lemma keys_mapValues {A B : Type} (f : A → string → B) (o : Obj.t A) :
  (Obj.mapValues f o).*1 = o.*1.
Proof.
  unfold Obj.mapValues. induction o as [|[k a] o IH]; [reflexivity|].
  simpl. f_equal. exact IH.
Qed.

Lemma keys_mapValuesM {A B : Type} (f : A → string → result B) (o : Obj.t A)
    (o' : Obj.t B) :
  Obj.mapValuesM f o = Ok o' → o'.*1 = o.*1.
Proof.
  unfold Obj.mapValuesM. revert o'.
  induction o as [|[k a] o IH]; intros o' Hmap; simpl in Hmap.
  - by injection Hmap as <-.
  - destruct (f a k) as [b|]; simpl in Hmap; [|discriminate].
    destruct (mapM _ o) as [rest|]; simpl in Hmap; [|discriminate].
    injection Hmap as <-. simpl. f_equal. by apply IH.
Qed.

Section PackageReports.
Context {num : Type} `{NumberOps num} `{Collaborators}.

Lemma isInvalidDimension_false (dimension : jsval num) :
  isInvalidDimension dimension = false
  ↔ ∃ n, dimension = JNum n
         ∧ num_isFinite n = true
         ∧ num_le n (num_of_Z 0) = false.
Proof.
  unfold isInvalidDimension. rewrite orb_false_iff, negb_false_iff.
  destruct dimension as [| |s|n]; simpl.
  - split; [intros [Hno _]; discriminate | intros (n' & Hn & _); discriminate].
  - split; [intros [Hno _]; discriminate | intros (n' & Hn & _); discriminate].
  - split; [intros [Hno _]; discriminate | intros (n' & Hn & _); discriminate].
  - split.
    + intros [Hfinite Hle]. eauto.
    + intros (n' & [= <-] & Hfinite & Hle). auto.
Qed.

Lemma packageErrors_leaves (pckg : Package.t num) :
  hasNonEmptyLeaves (packageErrors pckg)
  = eq_lit "not_selected" (Package.box_id pckg)
    || isInvalidDimension (Package.weight pckg)
    || existsb isInvalidDimension
         [Package.length pckg; Package.width pckg; Package.height pckg].
Proof.
  unfold packageErrors.
  destruct (eq_lit _ _), (isInvalidDimension (Package.weight pckg)), (existsb _ _);
    reflexivity.
Qed.

(** X7: the report of [getPackagesErrors] has no error exactly when every
    package has a box other than "not_selected" and a weight, a length, a
    width and a height that are numbers (not texts), finite and greater than
    zero. *)
Theorem getPackagesErrors_pass (values : Obj.t (Package.t num)) :
  let valid (dimension : jsval num) :=
    ∃ n, dimension = JNum n ∧ num_isFinite n = true ∧ num_le n (num_of_Z 0) = false in
  hasNonEmptyLeaves (getPackagesErrors values) = false
  ↔ ∀ packageId pckg,
      (packageId, pckg) ∈ values →
      Package.box_id pckg ≠ Some "not_selected"
      ∧ valid (Package.weight pckg)
      ∧ valid (Package.length pckg)
      ∧ valid (Package.width pckg)
      ∧ valid (Package.height pckg).
Proof.
  intros valid. unfold getPackagesErrors. rewrite obj_leaves_mapValues.
  split; intros Hall packageId pckg Hin; specialize (Hall packageId pckg Hin).
  - rewrite packageErrors_leaves in Hall. cbn [existsb] in Hall.
    rewrite !orb_false_iff, !isInvalidDimension_false in Hall.
    destruct Hall as ((Hbox & Hweight) & Hlength & Hwidth & Hheight & _).
    repeat split; try assumption.
    intros Hsel. apply eq_lit_true in Hsel. congruence.
  - rewrite packageErrors_leaves. cbn [existsb].
    rewrite !orb_false_iff, !isInvalidDimension_false.
    destruct Hall as (Hbox & Hweight & Hlength & Hwidth & Hheight).
    repeat split; try assumption.
    destruct (eq_lit "not_selected" (Package.box_id pckg)) eqn:Hsel; [|reflexivity].
    apply eq_lit_true in Hsel. contradiction.
Qed.

Lemma renderable_nonblank (err : Rates.providerError) (text : string) :
  renderable err = Some text → hasNonEmptyLeaves text = true.
Proof.
  unfold renderable. intros Htext.
  destruct (truthy (if truthy (Rates.userMessage err) then _ else _)) eqn:Htruthy;
    [|discriminate].
  rewrite Htext in Htruthy. exact Htruthy.
Qed.

Lemma packageRatesErrors_leaves (selectedRates : Obj.t Rates.selection)
    (quotes : Rates.quotes num) (boxId : string) :
  hasNonEmptyLeaves (packageRatesErrors selectedRates quotes boxId) = false
  ↔ Rates.errors (Rates.default quotes) = []
    ∧ truthy (Obj.get selectedRates boxId ≫= Rates.serviceId) = true.
Proof.
  unfold packageRatesErrors.
  destruct (Rates.errors (Rates.default quotes)) as [|err errs] eqn:Herrors.
  - destruct (truthy _).
    + split; [auto | reflexivity].
    + destruct (Rates.rates (Rates.default quotes));
        (split; [intros [=] | intros [_ [=]]]).
  - split; [|intros [[=] _]].
    destruct (omap renderable (err :: errs)) as [|text texts] eqn:Hmessages;
      [intros [=]|].
    assert (renderable_in : ∃ e, renderable e = Some text).
    { assert (text ∈ omap renderable (err :: errs)) as Hin
        by (rewrite Hmessages; apply list_elem_of_here).
      apply list_elem_of_omap in Hin as (e & _ & He). eauto. }
    destruct renderable_in as [e He].
    unfold hasNonEmptyLeaves, list_tree. cbn [existsb].
    rewrite (renderable_nonblank e text He). intros [=].
Qed.

Lemma getRatesErrors_pass_aux (rates : Rates.t num) :
  hasNonEmptyLeaves (getRatesErrors rates) = false
  ↔ ∀ boxId quotes,
      (boxId, quotes) ∈ Rates.available rates →
      Rates.errors (Rates.default quotes) = []
      ∧ truthy (Obj.get (Rates.values rates) boxId ≫= Rates.serviceId) = true.
Proof.
  unfold getRatesErrors. rewrite obj_leaves_mapValues.
  split; intros Hall boxId quotes Hin; apply packageRatesErrors_leaves; by apply Hall.
Qed.

(** X8: the report of [getRatesErrors] has no message exactly when every
    quoted package has a default quote without provider errors and a selected
    service; a provider error blocks a package even when a service is
    selected for it. *)
Theorem getRatesErrors_pass (rates : Rates.t num) :
  hasNonEmptyLeaves (getRatesErrors rates) = false
  ↔ ∀ boxId quotes,
      (boxId, quotes) ∈ Rates.available rates →
      Rates.errors (Rates.default quotes) = []
      ∧ truthy (Obj.get (Rates.values rates) boxId ≫= Rates.serviceId) = true.
Proof. apply getRatesErrors_pass_aux. Qed.

Lemma hasSelectedRates_of_no_errors_aux (rates : Rates.t num) :
  Rates.available rates ≠ [] →
  hasNonEmptyLeaves (getRatesErrors rates) = false →
  hasSelectedRates rates = true.
Proof.
  unfold hasSelectedRates. intros Hquoted Hpass.
  rewrite length_map. destruct (Rates.available rates) as [|q qs] eqn:Hav;
    [contradiction|]. cbn [List.length Nat.eqb negb andb].
  apply forallb_forall. intros selection Hsel.
  apply in_map_iff in Hsel as ([boxId quotes] & <- & Hin).
  assert (truthy (Obj.get (Rates.values rates) boxId ≫= Rates.serviceId) = true)
    as Hservice.
  { apply (proj1 (getRatesErrors_pass_aux rates) Hpass boxId quotes).
    rewrite Hav. by apply list_elem_of_In. }
  cbn [fst]. destruct (Obj.get (Rates.values rates) boxId); [reflexivity|discriminate].
Qed.

(** X9: a rate selection whose report has no message and which has at
    least one quoted package satisfies [hasSelectedRates]; without any quoted
    package [hasSelectedRates] is false. *)
Theorem hasSelectedRates_of_no_errors (rates : Rates.t num) :
  (Rates.available rates = [] → hasSelectedRates rates = false)
  ∧ (Rates.available rates ≠ [] →
     hasNonEmptyLeaves (getRatesErrors rates) = false →
     hasSelectedRates rates = true).
Proof.
  split.
  - unfold hasSelectedRates. intros ->. reflexivity.
  - apply hasSelectedRates_of_no_errors_aux.
Qed.

(** X10: the reports by package keep the package ids of their input, in the
    same order: [getPackagesErrors] and the [packages] part of
    [getCustomsErrors] those of the packages, [getRatesErrors] those of the
    quoted packages. *)
Theorem reports_keep_package_ids (packages : Obj.t (Package.t num))
    (customs : Customs.t num) (code : option string) (name : string)
    (rates : Rates.t num) :
  (getPackagesErrors packages).*1 = packages.*1
  ∧ (getRatesErrors rates).*1 = (Rates.available rates).*1
  ∧ (∀ errors, getCustomsErrors packages customs code name = Ok errors →
               (CustomsErrors.packages errors).*1 = packages.*1).
Proof.
  split; [apply keys_mapValues|]. split; [apply keys_mapValues|].
  unfold getCustomsErrors. intros errors Hrun.
  destruct (getValuesByProductId packages customs); simpl in Hrun; [|discriminate].
  destruct (Obj.mapValuesM _ packages) as [report|] eqn:Hmap; simpl in Hrun;
    [|discriminate].
  injection Hrun as <-. by apply (keys_mapValuesM _ _ _ Hmap).
Qed.

End PackageReports.

(** ** Customs report *)

Lemma get_elem_of_NoDup {A : Type} (o : Obj.t A) (k : string) (v : A) :
  NoDup o.*1 → (k, v) ∈ o → Obj.get o k = Some v.
Proof.
  induction o as [|[k' v'] o IH]; intros Hnodup Hin; [by apply elem_of_nil in Hin|].
  simpl in Hnodup. apply NoDup_cons in Hnodup as [Hfresh Hnodup].
  apply elem_of_cons in Hin as [[= -> ->]|Hin]; simpl.
  - by rewrite String.eqb_refl.
  - destruct (String.eqb_spec k' k) as [->|Hne]; [|by apply IH].
    destruct Hfresh. apply list_elem_of_fmap. exists (k, v). auto.
Qed.

Lemma get_pick {A : Type} (source : gmap string A) (keys : list string) (k : string) :
  Obj.get (Obj.pick source keys) k = if decide (k ∈ keys) then source !! k else None.
Proof.
  destruct (pick_spec source keys) as [Hin Hnodup].
  destruct (Obj.get (Obj.pick source keys) k) as [v|] eqn:Hget.
  - apply get_Some_elem_of, Hin in Hget as [Hk Hv].
    by rewrite decide_True.
  - case_decide as Hk; [|reflexivity].
    destruct (source !! k) as [v|] eqn:Hv; [|reflexivity].
    rewrite (get_elem_of_NoDup _ k v Hnodup) in Hget; [discriminate|].
    by apply Hin.
Qed.

Section CustomsReport.
Context {num : Type} `{NumberOps num} `{Collaborators}.

(** The [itn] entry of the report of a package, by the set
    [classesAbove2500usd]. *)
Lemma customsPackageErrors_itn_lookup (customs : Customs.t num)
    (valuesByTariffNumber : gmap string num) (code : option string) (name : string)
    (pckg : Package.t num) (errors : gmap string string)
    (classes : list (option string)) :
  customsPackageErrors customs valuesByTariffNumber code name pckg = Ok errors →
  getClassesAbove2500usd customs valuesByTariffNumber pckg = Ok classes →
  errors !! "itn" =
  if truthy (Package.itn pckg) then
    if itn_matches (default "" (Package.itn pckg)) then None
    else Some CustomsMsg.itn_format
  else if eq_lit "CA" code then None
  else
    match classes with
    | class :: _ => Some (CustomsMsg.itn_threshold (prop_key class))
    | [] =>
        if includes USPS_ITN_REQUIRED_DESTINATIONS code
        then Some (CustomsMsg.itn_country name) else None
    end.
Proof.
  unfold customsPackageErrors. intros Herrors Hclasses.
  rewrite Hclasses in Herrors. cbn [bind] in Herrors. injection Herrors as <-.
  destruct (itn_matches (default "" (Package.itn pckg))), (eq_lit "CA" code),
    classes as [|class classes]; cbn [negb];
    repeat match goal with
           | |- context [if ?b then _ else _] => destruct b
           end;
    repeat (rewrite lookup_insert_eq || rewrite lookup_insert_ne by discriminate);
    try reflexivity; apply lookup_empty.
Qed.

(** The report of a package and its set [classesAbove2500usd], once
    [getCustomsErrors] has completed. *)
Lemma getCustomsErrors_package (packages : Obj.t (Package.t num))
    (customs : Customs.t num) (code : option string) (name : string)
    (errors : CustomsErrors.t) (packageId : string) (pckg : Package.t num) :
  getCustomsErrors packages customs code name = Ok errors →
  Obj.get packages packageId = Some pckg →
  ∃ valuesByProductId packageErrors classes,
    getValuesByProductId packages customs = Ok valuesByProductId
    ∧ Obj.get (CustomsErrors.packages errors) packageId = Some packageErrors
    ∧ customsPackageErrors customs
        (getValuesByTariffNumber customs (usedProductIds packages) valuesByProductId)
        code name pckg = Ok packageErrors
    ∧ getClassesAbove2500usd customs
        (getValuesByTariffNumber customs (usedProductIds packages) valuesByProductId)
        pckg = Ok classes.
Proof.
  unfold getCustomsErrors. intros Hrun Hget.
  destruct (getValuesByProductId packages customs) as [valuesByProductId|];
    simpl in Hrun; [|discriminate].
  destruct (Obj.mapValuesM _ packages) as [report|] eqn:Hmap; simpl in Hrun;
    [|discriminate].
  injection Hrun as <-.
  destruct (get_mapValuesM _ _ _ _ _ Hmap Hget) as (packageErrors & Hpackage & Hget').
  cbn beta in Hpackage.
  exists valuesByProductId, packageErrors.
  destruct (getClassesAbove2500usd customs _ pckg) as [classes|] eqn:Hclasses.
  - exists classes. auto.
  - unfold customsPackageErrors in Hpackage. rewrite Hclasses in Hpackage. discriminate.
Qed.

(** X11: for a package that carries an [itn], the report has the "invalid
    format" error exactly when the value has neither the form "AES X" and 14
    digits nor the form "NOEEI 30." and a subsection; the destination and the
    declared values are not looked at, and a well-formed ITN never yields an
    error. *)
Theorem getCustomsErrors_itn_given (packages : Obj.t (Package.t num))
    (customs : Customs.t num) (code : option string) (name : string)
    (packageId : string) (pckg : Package.t num) (itn : string) :
  allEntries packages customs →
  Obj.get packages packageId = Some pckg →
  Package.itn pckg = Some itn →
  itn ≠ "" →
  ∃ errors packageErrors,
    getCustomsErrors packages customs code name = Ok errors
    ∧ Obj.get (CustomsErrors.packages errors) packageId = Some packageErrors
    ∧ packageErrors !! "itn" =
      if itn_matches itn then None else Some CustomsMsg.itn_format.
Proof.
  intros Hall Hget Hitn Hne.
  destruct (getCustomsErrors_completes packages customs code name Hall) as [errors Hrun].
  destruct (getCustomsErrors_package _ _ _ _ _ _ _ Hrun Hget)
    as (valuesByProductId & packageErrors & classes & _ & Hreport & Herrors & Hclasses).
  exists errors, packageErrors. repeat split; try assumption.
  rewrite (customsPackageErrors_itn_lookup _ _ _ _ _ _ _ Herrors Hclasses), Hitn.
  assert (truthy (Some itn) = true) as ->; [|reflexivity].
  simpl. destruct (String.eqb_spec itn ""); [contradiction | reflexivity].
Qed.

(** X12: a package without [itn] bound for "CA" never has an ITN error,
    whatever the declared values are. *)
Theorem getCustomsErrors_itn_canada (packages : Obj.t (Package.t num))
    (customs : Customs.t num) (name : string)
    (packageId : string) (pckg : Package.t num) :
  allEntries packages customs →
  Obj.get packages packageId = Some pckg →
  truthy (Package.itn pckg) = false →
  ∃ errors packageErrors,
    getCustomsErrors packages customs (Some "CA") name = Ok errors
    ∧ Obj.get (CustomsErrors.packages errors) packageId = Some packageErrors
    ∧ packageErrors !! "itn" = None.
Proof.
  intros Hall Hget Hitn.
  destruct (getCustomsErrors_completes packages customs (Some "CA") name Hall)
    as [errors Hrun].
  destruct (getCustomsErrors_package _ _ _ _ _ _ _ Hrun Hget)
    as (valuesByProductId & packageErrors & classes & _ & Hreport & Herrors & Hclasses).
  exists errors, packageErrors. repeat split; try assumption.
  rewrite (customsPackageErrors_itn_lookup _ _ _ _ _ _ _ Herrors Hclasses), Hitn.
  reflexivity.
Qed.

(** X13: for a package without [itn], bound for a country other than "CA",
    none of whose items has a tariff number with an aggregated value above
    2500, the ITN error is reported exactly when the destination is in the
    list of the destinations that require an ITN, and it cites the name of
    the country. *)
Theorem getCustomsErrors_itn_destination (packages : Obj.t (Package.t num))
    (customs : Customs.t num) (code : option string) (name : string)
    (packageId : string) (pckg : Package.t num) :
  allEntries packages customs →
  Obj.get packages packageId = Some pckg →
  truthy (Package.itn pckg) = false →
  code ≠ Some "CA" →
  ∃ errors valuesByProductId packageErrors,
    getCustomsErrors packages customs code name = Ok errors
    ∧ getValuesByProductId packages customs = Ok valuesByProductId
    ∧ Obj.get (CustomsErrors.packages errors) packageId = Some packageErrors
    ∧ ((∀ it itemData tariffNumber v,
          it ∈ Package.items pckg →
          Customs.items customs !! Package.product_id it = Some itemData →
          Customs.tariffNumber itemData = Some tariffNumber →
          getValuesByTariffNumber customs (usedProductIds packages) valuesByProductId
            !! tariffNumber = Some v →
          num_lt (num_of_Z 2500) v = false) →
       packageErrors !! "itn" =
       if includes USPS_ITN_REQUIRED_DESTINATIONS code
       then Some (CustomsMsg.itn_country name) else None).
Proof.
  intros Hall Hget Hitn Hcode.
  destruct (getCustomsErrors_completes packages customs code name Hall) as [errors Hrun].
  destruct (getCustomsErrors_package _ _ _ _ _ _ _ Hrun Hget)
    as (valuesByProductId & packageErrors & classes & Hfirst & Hreport & Herrors
        & Hclasses).
  exists errors, valuesByProductId, packageErrors. repeat split; try assumption.
  intros Hbelow.
  rewrite (customsPackageErrors_itn_lookup _ _ _ _ _ _ _ Herrors Hclasses), Hitn.
  assert (eq_lit "CA" code = false) as ->.
  { destruct (eq_lit "CA" code) eqn:Hca; [|reflexivity].
    apply eq_lit_true in Hca. contradiction. }
  destruct classes as [|class classes]; [reflexivity|]. exfalso.
  destruct (proj1 (addClassAbove2500usd_loop _ _ _ _ _ class Hclasses)
              (list_elem_of_here _ _))
    as [Hnil|(it & itemData & Hin & Hentry & Htariff & Habove)];
    [by apply elem_of_nil in Hnil|].
  destruct class as [tariffNumber|].
  - apply above2500_Some in Habove as (v & Hv & Hlt).
    rewrite (Hbelow it itemData tariffNumber v Hin Hentry Htariff Hv) in Hlt.
    discriminate.
  - unfold above2500 in Habove. simpl in Habove.
    rewrite getValuesByTariffNumber_length in Habove; [discriminate|].
    simpl. discriminate.
Qed.



End CustomsReport.

(** ** The step gate, further *)

Section GateProperties.
Context {num : Type} `{NumberOps num} `{Collaborators}.

Lemma isUnreviewed_false (customs : Customs.t num) (id : string) :
  is_Some (Customs.items customs !! id) →
  ∃ flag, isUnreviewed customs id = Ok flag ∧ (flag = false ↔ reviewed customs id).
Proof.
  unfold isUnreviewed, reviewed. intros [itemData Hentry]. rewrite Hentry.
  eexists. split; [reflexivity|].
  rewrite !orb_false_iff, negb_false_iff, !bool_decide_eq_false.
  split.
  - intros [[Htariff Hweight] Hvalue]. exists itemData.
    repeat split; try assumption.
    destruct (Customs.tariffNumber itemData); [discriminate | discriminate].
  - intros (d & [= <-] & Htariff & Hweight & Hvalue).
    repeat split; try assumption.
    destruct (Customs.tariffNumber itemData); [reflexivity | contradiction].
Qed.

Lemma mapM_isUnreviewed_all (customs : Customs.t num) (ids : list string) :
  (∀ id, id ∈ ids → is_Some (Customs.items customs !! id)) →
  ∃ flags,
    mapM (isUnreviewed customs) ids = Ok flags
    ∧ (existsb id flags = false ↔ ∀ id, id ∈ ids → reviewed customs id).
Proof.
  induction ids as [|productId ids IH]; intros Hentries; simpl.
  - exists []. split; [reflexivity|]. simpl.
    split; [intros _ ? Hin; by apply elem_of_nil in Hin | reflexivity].
  - destruct (isUnreviewed_false customs productId) as (flag & -> & Hflag);
      [apply Hentries, list_elem_of_here|].
    destruct IH as (flags & -> & Hflags);
      [intros ? ?; by apply Hentries, list_elem_of_further|].
    exists (flag :: flags). split; [reflexivity|].
    simpl. rewrite orb_false_iff. unfold id at 1. rewrite Hflag, Hflags.
    split.
    + intros [Hfirst Hrest] id' Hin.
      apply elem_of_cons in Hin as [->|Hin]; auto.
    + intros Hall. split; [apply Hall, list_elem_of_here|].
      intros id' Hin. by apply Hall, list_elem_of_further.
Qed.


(** The parts of the form errors of a loaded form. *)
Lemma getFormErrors_parts (state : State num) (orderId siteId : Z)
    (form : Form.t num) (errors : FormErrors.t) :
  getForm state orderId siteId = Some form →
  getFormErrors state orderId siteId = Ok (Some errors) →
  FormErrors.packages errors = getPackagesErrors (Form.selected (Form.packages form))
  ∧ FormErrors.rates errors = getRatesErrors (Form.rates form)
  ∧ getCustomsErrors (Form.selected (Form.packages form)) (Form.customs form)
      (values (Form.destination form) !! "country")
      (getCountryName (values (Form.destination form) !! "country"))
    = Ok (FormErrors.customs errors).
Proof.
  unfold getForm, getFormErrors. intros Hform Herrors.
  destruct (isLoaded state orderId siteId); [|discriminate]. simpl in Herrors.
  destruct (getShippingLabel state orderId siteId) as [label|]; [|discriminate].
  simpl in Hform. rewrite Hform in Herrors.
  destruct (getCustomsErrors _ _ _ _) as [customs|]; [|discriminate].
  simpl in Herrors. injection Herrors as <-. auto.
Qed.

(** X17: for a form whose errors were derived, [getFirstErroneousStep]
    returns [null] exactly when both addresses are normalized with values
    equal to their normalized form and have no error, no package has an
    error, no quoted package has a rates message and, if a customs form is
    required, the customs report has no error and every used product has been
    reviewed. *)
Theorem getFirstErroneousStep_null_iff (state : State num) (orderId siteId : Z)
    (form : Form.t num) (errors : FormErrors.t) :
  getForm state orderId siteId = Some form →
  getFormErrors state orderId siteId = Ok (Some errors) →
  let passes (address : Address) (report : gmap string string) :=
    isNormalized address = true
    ∧ normalized address = Some (values address)
    ∧ hasNonEmptyLeaves report = false in
  getFirstErroneousStep state orderId siteId = Ok None
  ↔ passes (Form.origin form) (FormErrors.origin errors)
    ∧ passes (Form.destination form) (FormErrors.destination errors)
    ∧ hasNonEmptyLeaves (FormErrors.packages errors) = false
    ∧ (isCustomsFormRequired state orderId siteId = true →
       hasNonEmptyLeaves (FormErrors.customs errors) = false
       ∧ ∀ id, id ∈ usedProductIds (Form.selected (Form.packages form)) →
               reviewed (Form.customs form) id)
    ∧ hasNonEmptyLeaves (FormErrors.rates errors) = false.
Proof.
  intros Hform Herrors passes.
  assert (∀ address report,
            addressFails address (Some report) = false ↔ passes address report)
    as Haddress.
  { intros address report. unfold addressFails, passes.
    rewrite !orb_false_iff, !negb_false_iff, bool_decide_eq_true.
    change (hasNonEmptyLeaves (Some report)) with (hasNonEmptyLeaves report).
    split; [intros [[? ?] ?] | intros (? & ? & ?)]; auto. }
  destruct (getFormErrors_parts _ _ _ _ _ Hform Herrors) as (_ & _ & Hcustoms).
  pose proof (getCustomsErrors_entries _ _ _ _ _ Hcustoms) as Hentries.
  unfold getFirstErroneousStep. rewrite Hform, Herrors.
  cbn [bind fmap option_fmap option_map].
  rewrite <- !Haddress.
  change (hasNonEmptyLeaves (Some (FormErrors.packages errors)))
    with (hasNonEmptyLeaves (FormErrors.packages errors)).
  change (hasNonEmptyLeaves (Some (FormErrors.rates errors)))
    with (hasNonEmptyLeaves (FormErrors.rates errors)).
  destruct (addressFails (Form.origin form) _);
    [split; [discriminate | intros [[=] _]]|].
  destruct (addressFails (Form.destination form) _);
    [split; [discriminate | intros (_ & [=] & _)]|].
  destruct (hasNonEmptyLeaves (FormErrors.packages errors));
    [split; [discriminate | intros (_ & _ & [=] & _)]|].
  unfold customsFails.
  change (hasNonEmptyLeaves (Some (FormErrors.customs errors)))
    with (hasNonEmptyLeaves (FormErrors.customs errors)).
  destruct (isCustomsFormRequired state orderId siteId).
  - destruct (hasNonEmptyLeaves (FormErrors.customs errors)).
    { cbn [bind]. split; [discriminate|].
      intros (_ & _ & _ & Hc & _). destruct (Hc eq_refl) as [[=] _]. }
    unfold isCustomsFormStepSubmitted. rewrite Hform.
    destruct (mapM_isUnreviewed_all _ _ Hentries) as (flags & -> & Hflags).
    cbn [bind]. rewrite negb_involutive.
    destruct (existsb id flags).
    + split; [discriminate|].
      intros (_ & _ & _ & Hc & _). destruct (Hc eq_refl) as [_ Hall].
      apply Hflags in Hall. discriminate.
    + destruct (hasNonEmptyLeaves (FormErrors.rates errors)).
      * split; [discriminate | intros (_ & _ & _ & _ & [=])].
      * split; [|reflexivity]. intros _. repeat split. by apply Hflags.
  - cbn [bind]. destruct (hasNonEmptyLeaves (FormErrors.rates errors)).
    + split; [discriminate | intros (_ & _ & _ & _ & [=])].
    + split; [|reflexivity]. intros _. repeat split; discriminate.
Qed.

(** X18: the paper size plays no part in the step gate: two states whose
    labels differ in [paperSize] only have the same first erroneous step,
    although a missing paper size is reported in [errors.sidebar]. *)
Theorem getFirstErroneousStep_ignores_paperSize (state state' : State num)
    (orderId siteId : Z) (label label' : ShippingLabel.t num) :
  getShippingLabel state orderId siteId = Some label →
  getShippingLabel state' orderId siteId = Some label' →
  ShippingLabel.loaded label' = ShippingLabel.loaded label →
  ShippingLabel.form label' = ShippingLabel.form label →
  getFirstErroneousStep state' orderId siteId = getFirstErroneousStep state orderId siteId.
Proof.
  intros Hlabel Hlabel' Hloaded Hform.
  unfold getFirstErroneousStep, customsFails, isCustomsFormStepSubmitted, getFormErrors,
    isCustomsFormRequired, isLoaded, getForm.
  rewrite Hlabel, Hlabel'. cbn [mbind option_bind]. rewrite Hloaded, Hform.
  destruct (ShippingLabel.form label) as [form|]; [|reflexivity].
  destruct (ShippingLabel.loaded label); cbn [negb bind]; [|reflexivity].
  destruct (getCustomsErrors _ _ _ _); reflexivity.
Qed.

(** X19: the customs requirement is symmetric: a form and the form with
    origin and destination exchanged require a customs form alike. *)
Theorem isCustomsFormRequired_symmetric (state state' : State num)
    (orderId siteId : Z) (form form' : Form.t num) :
  getForm state orderId siteId = Some form →
  getForm state' orderId siteId = Some form' →
  Form.origin form' = Form.destination form →
  Form.destination form' = Form.origin form →
  isCustomsFormRequired state' orderId siteId = isCustomsFormRequired state orderId siteId.
Proof.
  intros Hform Hform' Ho Hd. unfold isCustomsFormRequired.
  rewrite Hform, Hform', Ho, Hd.
  destruct (isMilitary (getAddressValues (Form.origin form))),
    (isMilitary (getAddressValues (Form.destination form))); try reflexivity.
  f_equal. apply bool_decide_ext. split; congruence.
Qed.

(** X20: [canPurchase] is false without a form, and throws when the step
    gate throws.  When it holds of a loaded label, no request is under way,
    the step gate returns [null], and every quoted package, of which there is
    at least one, has a default quote without provider errors and a selected
    service, so that [hasSelectedRates] holds too. *)
Theorem canPurchase_sound (state : State num) (progress : Progress.t)
    (orderId siteId : Z) :
  (getForm state orderId siteId = None →
   canPurchase state progress orderId siteId = Ok false)
  ∧ (getFirstErroneousStep state orderId siteId = TypeError →
     canPurchase state progress orderId siteId = TypeError)
  ∧ (∀ form,
       getForm state orderId siteId = Some form →
       isLoaded state orderId siteId = true →
       canPurchase state progress orderId siteId = Ok true →
       getFirstErroneousStep state orderId siteId = Ok None
       ∧ Progress.originNormalization progress = false
       ∧ Progress.destinationNormalization progress = false
       ∧ Progress.ratesRetrieval progress = false
       ∧ Rates.available (Form.rates form) ≠ []
       ∧ hasSelectedRates (Form.rates form) = true
       ∧ ∀ boxId quotes,
           (boxId, quotes) ∈ Rates.available (Form.rates form) →
           Rates.errors (Rates.default quotes) = []
           ∧ truthy (Obj.get (Rates.values (Form.rates form)) boxId
                       ≫= Rates.serviceId) = true).
Proof.
  unfold canPurchase. split; [intros ->; reflexivity|]. split.
  - intros Hthrow. rewrite Hthrow.
    destruct (getForm state orderId siteId) as [form|] eqn:Hform; [reflexivity|].
    unfold getFirstErroneousStep in Hthrow. rewrite Hform in Hthrow. discriminate.
  - intros form Hform Hloaded. rewrite Hform.
    destruct (getFirstErroneousStep state orderId siteId) as [step|] eqn:Hstep;
      [|discriminate].
    cbn [bind]. intros [= Hall].
    rewrite !andb_true_iff, !negb_true_iff in Hall.
    destruct Hall as ((((Hnull & Ho) & Hd) & Hr) & Hquoted).
    destruct step as [step|]; [discriminate|].
    assert (Rates.available (Form.rates form) ≠ []) as Hne.
    { intros Hnil. rewrite Hnil in Hquoted. discriminate. }
    assert (hasNonEmptyLeaves (getRatesErrors (Form.rates form)) = false) as Hrates.
    { destruct (getFormErrors state orderId siteId) as [[errors|]|] eqn:Herrors.
      - destruct (getFormErrors_parts _ _ _ _ _ Hform Herrors) as (_ & <- & _).
        unfold getFirstErroneousStep in Hstep. rewrite Hform, Herrors in Hstep.
        cbn [bind fmap option_fmap option_map] in Hstep.
        change (hasNonEmptyLeaves (Some (FormErrors.rates errors)))
          with (hasNonEmptyLeaves (FormErrors.rates errors)) in Hstep.
        destruct (hasNonEmptyLeaves (FormErrors.rates errors)); [|reflexivity].
        repeat match type of Hstep with
               | context [if ?b then _ else _] => destruct b; try discriminate
               end.
        destruct (customsFails _ _ _ _) as [[|]|]; discriminate.
      - unfold getFormErrors, getForm in *. rewrite Hloaded in Herrors.
        cbn [negb] in Herrors.
        destruct (getShippingLabel state orderId siteId) as [label|]; [|discriminate].
        simpl in Hform. rewrite Hform in Herrors.
        destruct (getCustomsErrors _ _ _ _); discriminate.
      - unfold getFirstErroneousStep in Hstep. rewrite Hform, Herrors in Hstep.
        discriminate. }
    split; [reflexivity|]. split; [assumption|]. split; [assumption|].
    split; [assumption|]. split; [assumption|].
    split; [by apply hasSelectedRates_of_no_errors_aux|].
    apply (proj1 (getRatesErrors_pass_aux (Form.rates form)) Hrates).
Qed.

End GateProperties.

(** ** Price breakdown, further *)

Section PriceFurther.
Context {num : Type} `{NumberOps num}.

Lemma accumulate_fst {A B : Type} (f : A → num) (l : list (A * B)) :
  accumulate (λ p, f p.1) l = accumulate f l.*1.
Proof.
  unfold accumulate. generalize (num_of_Z 0).
  induction l as [|p l IH]; intros start; [reflexivity|]. simpl. apply IH.
Qed.

Lemma foundRates_fst (availableRates : Obj.t (Rates.quotes num)) (packageId : string)
    (selected selected' : Rates.selection) :
  Rates.serviceId selected' = Rates.serviceId selected →
  fst <$> foundRates availableRates packageId selected'
  = fst <$> foundRates availableRates packageId selected.
Proof.
  intros Hservice. unfold foundRates. rewrite Hservice.
  destruct (Obj.get availableRates packageId) as [quotes|]; [|reflexivity].
  destruct (findRate (Rates.serviceId selected) (Rates.rates (Rates.default quotes)));
    reflexivity.
Qed.

Lemma pricedPackages_fst (rates rates' : Rates.t num) :
  Rates.available rates' = Rates.available rates →
  Forall2 (λ entry' entry,
             entry'.1 = entry.1 ∧ Rates.serviceId entry'.2 = Rates.serviceId entry.2)
          (Rates.values rates') (Rates.values rates) →
  (pricedPackages rates').*1 = (pricedPackages rates).*1.
Proof.
  unfold pricedPackages. intros -> Hsame.
  induction Hsame as [|entry' entry values' values [Hkey Hservice] _ IH];
    [reflexivity|].
  cbn [omap list_omap].
  pose proof (foundRates_fst (Rates.available rates) entry.1 entry.2 entry'.2 Hservice)
    as Hfound.
  rewrite Hkey.
  destruct (foundRates (Rates.available rates) entry.1 entry'.2) as [[r' s']|],
    (foundRates (Rates.available rates) entry.1 entry.2) as [[r s]|];
    simpl in Hfound; try discriminate.
  - injection Hfound as ->. cbn [fmap list_fmap fst]. f_equal. exact IH.
  - exact IH.
Qed.

(** X21: the signature requirement changes neither the discount nor the
    number and the base data of the price lines: two selections of the same
    services for the same packages, against the same quotes, have the same
    discount and, line by line, the same title, retail rate, discounted rate
    and carrier; only the add-ons and the total can differ. *)
Theorem totalPriceBreakdown_signature (rates rates' : Rates.t num) :
  Rates.available rates' = Rates.available rates →
  Forall2 (λ entry' entry,
             entry'.1 = entry.1 ∧ Rates.serviceId entry'.2 = Rates.serviceId entry.2)
          (Rates.values rates') (Rates.values rates) →
  let base (line : Price.line num) :=
    (Price.title line, Price.retailRate line, Price.rateWithDiscount line,
     Price.carrierId line, Price.carrierTitle line) in
  let summary (breakdown : Price.breakdown num) :=
    (Price.discount breakdown, map base (Price.prices breakdown)) in
  summary <$> totalPriceBreakdown rates' = summary <$> totalPriceBreakdown rates.
Proof.
  intros Havailable Hsame base summary.
  pose proof (pricedPackages_fst rates rates' Havailable Hsame) as Hlines.
  rewrite !totalPriceBreakdown_accumulates.
  assert (∀ lines : list (Rates.quote num * option (Rates.quote num)),
            map base (map (λ p, priceLine p.1 p.2) lines)
            = map (λ r, base (priceLine r None)) lines.*1) as Hbase.
  { intros lines. induction lines as [|[r s] lines IH]; [reflexivity|].
    simpl. f_equal. exact IH. }
  destruct (pricedPackages rates') as [|line' lines'] eqn:Hpriced',
    (pricedPackages rates) as [|line lines] eqn:Hpriced;
    try discriminate; [reflexivity|].
  cbn [fmap option_fmap option_map]. f_equal. unfold summary.
  cbn [Price.discount Price.prices].
  rewrite !Hbase, !(accumulate_fst (λ r, num_round2 (num_sub (Rates.retail_rate r)
                                                       (Rates.rate r)))).
  rewrite Hlines. reflexivity.
Qed.

Lemma omap_filter_present {A B : Type} (f : A → option B) (p : A → bool) (l : list A) :
  (∀ x, p x = false → f x = None) →
  omap f (List.filter p l) = omap f l.
Proof.
  intros Hskip. induction l as [|x l IH]; [reflexivity|]. simpl.
  destruct (p x) eqn:Hp; cbn [omap list_omap].
  - by rewrite IH.
  - by rewrite (Hskip x Hp).
Qed.


End PriceFurther.

(** ** Country and state names *)

Lemma lookup_list_to_map_get {A : Type} (o : Obj.t A) (k : string) :
  (list_to_map o : gmap string A) !! k = Obj.get o k.
Proof.
  induction o as [|[k' v] o IH]; [apply lookup_empty|]. simpl.
  destruct (String.eqb_spec k' k) as [->|Hne].
  - apply lookup_insert_eq.
  - rewrite lookup_insert_ne by assumption. exact IH.
Qed.

Lemma get_create {A : Type} (k k' : string) (v : A) (o : Obj.t A) :
  Obj.get o k = None →
  Obj.get (Obj.create k v o) k' = if String.eqb k k' then Some v else Obj.get o k'.
Proof.
  induction o as [|[k1 v1] o IH]; intros Hfresh; simpl in *; [reflexivity|].
  destruct (String.eqb_spec k1 k) as [->|Hne]; [discriminate|].
  destruct (Obj.enumerated_before k k1); simpl; [reflexivity|].
  rewrite (IH Hfresh).
  destruct (String.eqb_spec k1 k') as [->|Hne']; [|reflexivity].
  destruct (String.eqb_spec k k') as [->|]; [contradiction | reflexivity].
Qed.

Lemma get_overwrite {A : Type} (k k' : string) (v v0 : A) (o : Obj.t A) :
  Obj.get o k = Some v0 →
  Obj.get (Obj.overwrite k v o) k' = if String.eqb k k' then Some v else Obj.get o k'.
Proof.
  induction o as [|[k1 v1] o IH]; intros Hold; simpl in *; [discriminate|].
  destruct (String.eqb_spec k1 k) as [->|Hne]; simpl.
  - destruct (String.eqb_spec k k'); reflexivity.
  - rewrite (IH Hold).
    destruct (String.eqb_spec k1 k') as [->|Hne']; [|reflexivity].
    destruct (String.eqb_spec k k') as [->|]; [contradiction | reflexivity].
Qed.

(** Assignment and lookup. *)
Lemma get_set {A : Type} (k k' : string) (v : A) (o : Obj.t A) :
  Obj.get (Obj.set k v o) k' = if String.eqb k k' then Some v else Obj.get o k'.
Proof.
  unfold Obj.set. destruct (Obj.get o k) as [v0|] eqn:Hold.
  - by apply (get_overwrite k k' v v0).
  - by apply get_create.
Qed.

Lemma get_omit {A : Type} (o : Obj.t A) (keys : list string) (k : string) :
  Obj.get (omit o keys) k
  = if existsb (String.eqb k) keys then None else Obj.get o k.
Proof.
  unfold omit. induction o as [|[k' v] o IH]; simpl.
  - by destruct (existsb _ keys).
  - destruct (existsb (String.eqb k') keys) eqn:Hk'; simpl.
    + rewrite IH. destruct (String.eqb_spec k' k) as [->|]; [|reflexivity].
      by rewrite Hk'.
    + destruct (String.eqb_spec k' k) as [->|]; [by rewrite Hk' | exact IH].
Qed.

Lemma get_namesByCode (states : list (string * string)) (names : Obj.t string)
    (code : string) :
  Obj.get (foldl (λ names state, Obj.set state.1 state.2 names) names states) code
  = match last (filter (λ state, state.1 = code) states) with
    | Some state => Some state.2
    | None => Obj.get names code
    end.
Proof.
  revert names. induction states as [|state states IH]; intros names; [reflexivity|].
  cbn [foldl]. rewrite IH, filter_cons, get_set.
  case_decide as Hcode.
  - rewrite last_cons. rewrite Hcode, String.eqb_refl.
    by destruct (last (filter _ states)).
  - destruct (String.eqb_spec state.1 code); [contradiction | reflexivity].
Qed.

Section NamesProperties.
Context `{Collaborators}.
Variable DOMESTIC_US_TERRITORIES : list string.
Variable getStates : string → list (string * string).
Variable isWcsInternationalLabelsEnabled : bool.

(** X23: every country offered as an origin is offered as a destination
    too, under the same name, and is a country of [getAllCountryNames]. *)
Theorem origin_countries_are_destinations (allNames : Obj.t string)
    (code name : string) :
  Obj.get (getOriginCountryNames DOMESTIC_US_TERRITORIES
             isWcsInternationalLabelsEnabled allNames) code = Some name →
  Obj.get (getDestinationCountryNames DOMESTIC_US_TERRITORIES
             isWcsInternationalLabelsEnabled allNames) code = Some name
  ∧ Obj.get allNames code = Some name.
Proof.
  unfold getOriginCountryNames, getDestinationCountryNames.
  destruct isWcsInternationalLabelsEnabled; rewrite !get_pick, lookup_list_to_map_get;
    case_decide; try discriminate; auto.
Qed.

(** X24: [getStateNames] returns [null] exactly for a country without
    states.  Otherwise the name it gives for a state code is the last one the
    location selector lists for that code, except that the military states
    are left out for "US" when international labels are disabled. *)
Theorem getStateNames_lookup (countryCode : string) :
  (getStateNames getStates isWcsInternationalLabelsEnabled countryCode = None
   ↔ hasStates (Some countryCode) = false)
  ∧ (∀ names code,
       getStateNames getStates isWcsInternationalLabelsEnabled countryCode
       = Some names →
       Obj.get names code =
       if String.eqb "US" countryCode && negb isWcsInternationalLabelsEnabled
          && existsb (String.eqb code) US_MILITARY_STATES
       then None
       else snd <$> last (filter (λ state, state.1 = code) (getStates countryCode))).
Proof.
  unfold getStateNames, namesByCode. split.
  - destruct (hasStates (Some countryCode)); cbn [negb].
    + destruct (_ && _); split; discriminate.
    + tauto.
  - intros names code.
    destruct (hasStates (Some countryCode)); cbn [negb]; [|discriminate].
    destruct (String.eqb "US" countryCode && negb isWcsInternationalLabelsEnabled);
      intros [= <-]; cbn [andb].
    + rewrite get_omit, get_namesByCode.
      destruct (existsb _ _); [reflexivity|].
      by destruct (last _).
    + rewrite get_namesByCode. by destruct (last _).
Qed.

End NamesProperties.

(** ** The further properties on the example forms *)

Lemma getRawAddressErrors_empty_iff_witness :
  getRawAddressErrors (Forms.verified Forms.austin) Samples.both_phones = ∅.
Proof.
  apply (proj2 (getRawAddressErrors_empty_iff (Forms.verified Forms.austin)
                  Samples.both_phones)).
  split.
  { intros field Hfield. apply list_elem_of_In in Hfield. simpl in Hfield.
    destruct Hfield as [<-|[<-|[<-|[<-|[]]]]]; reflexivity. }
  split; [left; reflexivity|].
  split; [intros _; reflexivity|].
  split; [left; reflexivity|].
  split; [intros _; split; reflexivity|].
  intros _; reflexivity.
Defined.

Lemma getRawAddressErrors_phone_digits_witness :
  getRawAddressErrors (Samples.with_phone (Some "1234567890")) Samples.origin_phone_only
    !! "phone" = Some Msg.phone_format.
Proof.
  destruct (getRawAddressErrors_phone_digits
              (Samples.with_phone (Some "1234567890")) Samples.origin_phone_only
              "1234567890") as [Haccepted Hformat].
  - reflexivity.
  - reflexivity.
  - discriminate.
  - apply Hformat. intros Hnone. apply Haccepted in Hnone.
    destruct Hnone as [[_ Hhead]|[Hlength _]].
    + apply Hhead. reflexivity.
    + vm_compute in Hlength. discriminate.
Defined.

Lemma getAddressErrors_full_path_witness :
  getAddressErrors Samples.stateless Samples.both_phones !! "state" = None
  ∧ getAddressErrors Samples.stateless Samples.both_phones !! "city" = None
  ∧ getAddressErrors Samples.stateless Samples.both_phones !! "address"
    = Some Msg.required.
Proof.
  assert (normalized Samples.stateless ≠ None
          ∨ (isNormalized Samples.stateless = false
             ∧ (isUnverifiable Samples.stateless = false
                ∨ fieldErrors Samples.stateless = None))) as Hpath.
  { right. split; [reflexivity | left; reflexivity]. }
  split; [|split].
  - rewrite (getAddressErrors_full_path _ Samples.both_phones "state" Hpath).
    reflexivity.
  - rewrite (getAddressErrors_full_path _ Samples.both_phones "city" Hpath).
    reflexivity.
  - rewrite (getAddressErrors_full_path _ Samples.both_phones "address" Hpath).
    reflexivity.
Defined.

Lemma isAddressUsable_iff_witness :
  isAddressUsable (Forms.export_state true) 123 Group.origin 1 = Ok true
  ∧ isAddressUsable (∅ : State Decimal.t) 123 Group.origin 1 = TypeError.
Proof.
  split.
  - destruct (isAddressUsable_iff (Forms.export_state true) 123 1 Group.origin)
      as [_ Hform].
    destruct (Hform _ eq_refl) as (usable & Hrun & Husable).
    rewrite Hrun. f_equal. apply Husable.
    split.
    { intros field Hfield. apply list_elem_of_In in Hfield. simpl in Hfield.
      destruct Hfield as [<-|[<-|[<-|[<-|[]]]]]; reflexivity. }
    split; [left; reflexivity|].
    split; [intros _; reflexivity|].
    split; [left; reflexivity|].
    intros _ _; split; reflexivity.
  - destruct (isAddressUsable_iff (∅ : State Decimal.t) 123 1 Group.origin)
      as [Hnone _].
    apply Hnone. reflexivity.
Defined.

Lemma getPackagesErrors_pass_witness :
  hasNonEmptyLeaves (getPackagesErrors Forms.two_packages) = false.
Proof.
  apply (proj2 (getPackagesErrors_pass Forms.two_packages)).
  intros packageId pckg Hpckg. apply list_elem_of_In in Hpckg. simpl in Hpckg.
  destruct Hpckg as [[= <- <-]|[[= <- <-]|[]]];
    (split; [discriminate|]);
    (split; [eexists; split; [reflexivity | split; reflexivity]|]);
    (split; [eexists; split; [reflexivity | split; reflexivity]|]);
    (split; [eexists; split; [reflexivity | split; reflexivity]|]);
    eexists; (split; [reflexivity | split; reflexivity]).
Defined.

Lemma getRatesErrors_pass_witness :
  hasNonEmptyLeaves (getRatesErrors Forms.priority_rates) = false.
Proof.
  apply (proj2 (getRatesErrors_pass Forms.priority_rates)).
  intros boxId quotes Hquotes. apply list_elem_of_In in Hquotes. simpl in Hquotes.
  destruct Hquotes as [[= <- <-]|[]]. split; reflexivity.
Defined.

Lemma hasSelectedRates_of_no_errors_witness :
  hasSelectedRates Forms.priority_rates = true
  ∧ hasSelectedRates Forms.no_rates = false.
Proof.
  destruct (hasSelectedRates_of_no_errors Forms.priority_rates) as [_ Hselected].
  destruct (hasSelectedRates_of_no_errors Forms.no_rates) as [Hnone _].
  split.
  - apply Hselected; [discriminate | reflexivity].
  - apply Hnone. reflexivity.
Defined.

Lemma reports_keep_package_ids_witness :
  ∃ errors,
    getCustomsErrors Forms.two_packages Forms.shared_tariff (Some "GB") "United Kingdom"
    = Ok errors
    ∧ (CustomsErrors.packages errors).*1 = ["first"; "second"].
Proof.
  destruct (getCustomsErrors Forms.two_packages Forms.shared_tariff (Some "GB")
              "United Kingdom") as [errors|] eqn:Hrun;
    [|vm_compute in Hrun; discriminate].
  exists errors. split; [reflexivity|].
  destruct (reports_keep_package_ids Forms.two_packages Forms.shared_tariff
              (Some "GB") "United Kingdom" Forms.no_rates) as (_ & _ & Hids).
  exact (Hids errors Hrun).
Defined.

Lemma getCustomsErrors_itn_given_witness :
  let pckg : Package.t Decimal.t :=
    {| Package.box_id := Some "medium";
       Package.items := [Forms.one "7"];
       Package.weight := JNum (Decimal.of_Z 2);
       Package.length := JNum (Decimal.of_Z 10);
       Package.width := JNum (Decimal.of_Z 8);
       Package.height := JNum (Decimal.of_Z 4);
       Package.contentsType := Some "merchandise";
       Package.contentsExplanation := None;
       Package.restrictionType := Some "none";
       Package.restrictionComments := None;
       Package.itn := Some "AES 12345" |} in
  ∃ errors packageErrors,
    getCustomsErrors [("box", pckg)] (Forms.declaration false) (Some "GB")
      "United Kingdom" = Ok errors
    ∧ Obj.get (CustomsErrors.packages errors) "box" = Some packageErrors
    ∧ packageErrors !! "itn" = Some CustomsMsg.itn_format.
Proof.
  intros pckg.
  destruct (getCustomsErrors_itn_given [("box", pckg)] (Forms.declaration false)
              (Some "GB") "United Kingdom" "box" pckg "AES 12345")
    as (errors & packageErrors & Hrun & Hget & Hitn).
  - intros p it Hp Hit. apply list_elem_of_In in Hp. simpl in Hp.
    destruct Hp as [<-|[]]. apply list_elem_of_In in Hit. simpl in Hit.
    destruct Hit as [<-|[]]. vm_compute. eauto.
  - reflexivity.
  - reflexivity.
  - discriminate.
  - exists errors, packageErrors. split; [exact Hrun|]. split; [exact Hget|].
    exact Hitn.
Defined.

Lemma getCustomsErrors_itn_canada_witness :
  ∃ errors packageErrors,
    getCustomsErrors Forms.two_packages Forms.shared_tariff (Some "CA") "Canada"
    = Ok errors
    ∧ Obj.get (CustomsErrors.packages errors) "second" = Some packageErrors
    ∧ packageErrors !! "itn" = None.
Proof.
  apply (getCustomsErrors_itn_canada Forms.two_packages Forms.shared_tariff "Canada"
           "second" (Forms.box "small" [Forms.one "12"])).
  - intros pckg it Hpckg Hit.
    apply list_elem_of_In in Hpckg. simpl in Hpckg.
    destruct Hpckg as [<-|[<-|[]]]; apply list_elem_of_In in Hit; simpl in Hit;
      destruct Hit as [<-|[]]; vm_compute; eauto.
  - reflexivity.
  - reflexivity.
Defined.

Lemma getCustomsErrors_itn_destination_witness :
  ∃ errors packageErrors,
    getCustomsErrors [("box", Forms.box "medium" [Forms.one "7"])]
      (Forms.declaration false) (Some "CU") "Cuba" = Ok errors
    ∧ Obj.get (CustomsErrors.packages errors) "box" = Some packageErrors
    ∧ packageErrors !! "itn" = Some (CustomsMsg.itn_country "Cuba").
Proof.
  destruct (getCustomsErrors_itn_destination
              [("box", Forms.box "medium" [Forms.one "7"])] (Forms.declaration false)
              (Some "CU") "Cuba" "box" (Forms.box "medium" [Forms.one "7"]))
    as (errors & valuesByProductId & packageErrors & Hrun & Hvalues & Hget & Hitn).
  - intros p it Hp Hit. apply list_elem_of_In in Hp. simpl in Hp.
    destruct Hp as [<-|[]]. apply list_elem_of_In in Hit. simpl in Hit.
    destruct Hit as [<-|[]]. vm_compute. eauto.
  - reflexivity.
  - reflexivity.
  - discriminate.
  - exists errors, packageErrors. split; [exact Hrun|]. split; [exact Hget|].
    rewrite Hitn; [reflexivity|].
    vm_compute in Hvalues. injection Hvalues as <-.
    intros it itemData tariffNumber v Hit Hdata Htariff Hvalue.
    apply list_elem_of_In in Hit. simpl in Hit. destruct Hit as [<-|[]].
    vm_compute in Hdata. injection Hdata as <-.
    vm_compute in Htariff. injection Htariff as <-.
    vm_compute in Hvalue. injection Hvalue as <-.
    reflexivity.
Defined.




Lemma getFirstErroneousStep_null_iff_witness :
  getFirstErroneousStep Forms.priority_state 123 1 = Ok None.
Proof.
  destruct (getForm Forms.priority_state 123 1) as [form|] eqn:Hform;
    [|vm_compute in Hform; discriminate].
  destruct (getFormErrors Forms.priority_state 123 1) as [[errors|]|] eqn:Herrors;
    [|vm_compute in Herrors; discriminate|vm_compute in Herrors; discriminate].
  apply (proj2 (getFirstErroneousStep_null_iff Forms.priority_state 123 1 form errors
                  Hform Herrors)).
  vm_compute in Hform. injection Hform as <-.
  vm_compute in Herrors. injection Herrors as <-.
  split; [split; [reflexivity | split; reflexivity]|].
  split; [split; [reflexivity | split; reflexivity]|].
  split; [reflexivity|].
  split; [|reflexivity].
  intros Hrequired. vm_compute in Hrequired. discriminate.
Defined.

Lemma getFirstErroneousStep_ignores_paperSize_witness :
  getFirstErroneousStep
    ({[ (1%Z, 123%Z) :=
          {| ShippingLabel.loaded := true;
             ShippingLabel.form := getForm Forms.broken_state 123 1;
             ShippingLabel.paperSize := None |} ]} : State Decimal.t) 123 1
  = getFirstErroneousStep Forms.broken_state 123 1.
Proof.
  eapply getFirstErroneousStep_ignores_paperSize; reflexivity.
Defined.

Lemma isCustomsFormRequired_symmetric_witness :
  isCustomsFormRequired
    (Forms.state_of (Forms.verified Forms.toronto) (Forms.verified Forms.austin)
       [("box", Forms.box "medium" [Forms.one "7"])] (Forms.declaration true)
       Forms.no_rates) 123 1
  = isCustomsFormRequired (Forms.export_state true) 123 1.
Proof.
  eapply isCustomsFormRequired_symmetric; reflexivity.
Defined.

Lemma canPurchase_sound_witness :
  let idle := {| Progress.originNormalization := false;
                 Progress.destinationNormalization := false;
                 Progress.ratesRetrieval := false |} in
  (getFirstErroneousStep Forms.priority_state 123 1 = Ok None
   ∧ hasSelectedRates Forms.priority_rates = true)
  ∧ canPurchase (∅ : State Decimal.t) idle 123 1 = Ok false.
Proof.
  intros idle. split.
  - destruct (canPurchase_sound Forms.priority_state idle 123 1) as (_ & _ & Hsound).
    destruct (Hsound _ eq_refl) as (Hstep & _ & _ & _ & _ & Hselected & _).
    + reflexivity.
    + vm_compute. reflexivity.
    + split; [exact Hstep | exact Hselected].
  - destruct (canPurchase_sound (∅ : State Decimal.t) idle 123 1) as (Hnone & _).
    apply Hnone. reflexivity.
Defined.

Lemma totalPriceBreakdown_signature_witness :
  Price.discount <$>
    totalPriceBreakdown
      {| Rates.values :=
           [("box", {| Rates.serviceId := Some "usps_priority";
                       Rates.signatureRequired := Some "yes" |})];
         Rates.available := Rates.available Forms.priority_rates |}
  = Price.discount <$> totalPriceBreakdown Forms.priority_rates.
Proof.
  pose proof (totalPriceBreakdown_signature Forms.priority_rates
                {| Rates.values :=
                     [("box", {| Rates.serviceId := Some "usps_priority";
                                 Rates.signatureRequired := Some "yes" |})];
                   Rates.available := Rates.available Forms.priority_rates |}
                eq_refl) as Hsame.
  cbv zeta in Hsame.
  match type of Hsame with
  | _ → ?l = ?r => assert (l = r) as Hsummary
  end.
  { apply Hsame. constructor; [split; reflexivity | constructor]. }
  apply (f_equal (fmap fst)) in Hsummary.
  rewrite <- !option_fmap_compose in Hsummary. exact Hsummary.
Defined.

Lemma origin_countries_are_destinations_witness :
  Obj.get (getDestinationCountryNames ["US"; "PR"] false
             [("CA", "Canada"); ("US", "United States")]) "US"
  = Some "United States".
Proof.
  destruct (origin_countries_are_destinations ["US"; "PR"] false
              [("CA", "Canada"); ("US", "United States")] "US" "United States")
    as [Hdestination _]; [reflexivity | exact Hdestination].
Defined.

Lemma getStateNames_lookup_witness :
  let getStates (_ : string) :=
    [("TX", "Texas"); ("AA", "Armed Forces Americas")] in
  ∃ names,
    getStateNames getStates false "US" = Some names
    ∧ Obj.get names "AA" = None
    ∧ Obj.get names "TX" = Some "Texas".
Proof.
  intros getStates.
  destruct (getStateNames getStates false "US") as [names|] eqn:Hrun;
    [|vm_compute in Hrun; discriminate].
  exists names. split; [reflexivity|].
  destruct (getStateNames_lookup getStates false "US") as [_ Hlookup].
  rewrite !(Hlookup names _ Hrun). split; reflexivity.
Defined.
